(** * Ledger transaction engine of the financial wallet system

    A shallow embedding of [WalletService] (services/walletService.ts), of the
    validators (utils/validators.ts), of the reference generator
    (utils/reference.ts) and of the relational schema the service runs
    against (database/migrations/001 and 003), followed by the properties of
    credit, debit, transfer, lookup by reference and history.

    Conventions of the embedding.
    - Money in the store.  The columns [balance], [amount], [balance_before]
      and [balance_after] are NUMERIC(18,2); a value of such a column is
      counted in hundredths, as a [Z].  The store computes on decimals,
      exactly, and rounds to two places, half away from zero, when it
      assigns to such a column.
    - Money in the service.  A JavaScript [number] is a binary64 floating
      point number: [Num m e] stands for [m * 2 ^ e], next to the three
      non-finite numbers.  [parseFloat], [+], [-], [<], [toFixed(2)] and the
      conversion of a number to the text of a statement parameter
      ([toString]: the shortest decimal that reads back as the number) are
      those of binary64, round to nearest, ties to even.  Negative zero is
      not told apart from zero: no operation used here does.
    - Identifiers.  The [id] and [user_id] columns are UUID; a row holds such
      a value in the text form the store prints (lower case, 8-4-4-4-12).  A
      text parameter compared with or assigned to such a column goes through
      the input conversion of the store ([Uuid.uuid_in]), which accepts other
      spellings of the same value and fails on anything else.
    - Store.  A table is the list of its rows in insertion order; a query is a
      [filter], an UPDATE a [map], an INSERT an append that first evaluates
      the constraints of the schema.
    - Effects.  Service code runs in a state-and-exception monad [M] over the
      connection state: the database and the log of the row locks taken with
      SELECT ... FOR UPDATE. *)

From Stdlib Require Import ZArith List String Bool Lia.
From Stdlib Require Import NArith Ascii DecimalString DecimalN.
Import ListNotations.

Local Open Scope string_scope.
Local Open Scope Z_scope.

(** ** Decimals *)

(** A decimal, [digits * 10 ^ scale]: the text of a number as a statement
    parameter carries it, and the store's type [numeric] holds it. *)
Record numeric : Type := mkNumeric {
  digits : Z;
  scale : Z
}.

(** ** JavaScript values *)

Module JS.

(** A [number]: the binary64 number [m * 2 ^ e], or one of the non-finite
    numbers.  The numbers of binary64 are the pairs with [|m| < 2 ^ 53] and
    [-1074 <= e <= 971]; every operation below returns one of them, with
    [2 ^ 52 <= |m|] unless [e = -1074], and zero as [Num 0 0]. *)
Inductive number : Type :=
| Num (m e : Z)
| NaN
| Infinity
| NegInfinity.

Definition neg (x : number) : number :=
  match x with
  | Num m e => Num (- m) e
  | NaN => NaN
  | Infinity => NegInfinity
  | NegInfinity => Infinity
  end.

(** [m * 2 ^ e] as a fraction. *)
Definition numerator (m e : Z) : Z := m * 2 ^ Z.max 0 e.
Definition denominator (e : Z) : Z := 2 ^ Z.max 0 (- e).

(** The floor of the binary logarithm of [n / d], for positive [n] and [d]. *)
Definition ilog2 (n d : Z) : Z :=
  let k := Z.log2 n - Z.log2 d in
  if n * 2 ^ Z.max 0 (- k) <? d * 2 ^ Z.max 0 k then k - 1 else k.

(** The integer nearest to [n / d], the even one of two, for positive [d]. *)
Definition nearest_even (n d : Z) : Z :=
  let q := n / d in
  match 2 * (n mod d) ?= d with
  | Lt => q
  | Gt => q + 1
  | Eq => if Z.even q then q else q + 1
  end.

(** The binary64 number nearest to [n / d], for positive [n] and [d]: 53
    bits from the leading one, fewer below [2 ^ -1022], and [Infinity] from
    [2 ^ 1024 - 2 ^ 970] on. *)
Definition round_pos (n d : Z) : number :=
  let e := Z.max (ilog2 n d - 52) (- 1074) in
  let m := nearest_even (n * 2 ^ Z.max 0 (- e)) (d * 2 ^ Z.max 0 e) in
  let '(m, e) := if m =? 2 ^ 53 then (2 ^ 52, e + 1) else (m, e) in
  if 971 <? e then Infinity
  else if m =? 0 then Num 0 0
  else Num m e.

(** The binary64 number nearest to [n / d], for positive [d]. *)
Definition round (n d : Z) : number :=
  match n ?= 0 with
  | Eq => Num 0 0
  | Gt => round_pos n d
  | Lt => neg (round_pos (- n) d)
  end.

(** The number a decimal denotes: what reading its text gives ([JSON.parse]
    of a request body, [parseFloat] of a column). *)
Definition of_decimal (s p : Z) : number :=
  round (s * 10 ^ Z.max 0 p) (10 ^ Z.max 0 (- p)).

(** [parseFloat(balance)] for the text of a NUMERIC(18,2) column. *)
Definition parseFloat (hundredths : Z) : number := of_decimal hundredths (- 2).

(** [x + y]. *)
Definition add (x y : number) : number :=
  match x, y with
  | NaN, _ | _, NaN => NaN
  | Infinity, NegInfinity | NegInfinity, Infinity => NaN
  | Infinity, _ | _, Infinity => Infinity
  | NegInfinity, _ | _, NegInfinity => NegInfinity
  | Num m1 e1, Num m2 e2 =>
      let e := Z.min e1 e2 in
      round (numerator (m1 * 2 ^ (e1 - e) + m2 * 2 ^ (e2 - e)) e) (denominator e)
  end.

(** [x - y]. *)
Definition sub (x y : number) : number := add x (neg y).

(** [x < y]. *)
Definition lt (x y : number) : bool :=
  match x, y with
  | NaN, _ | _, NaN => false
  | _, NegInfinity => false
  | NegInfinity, _ => true
  | Infinity, _ => false
  | _, Infinity => true
  | Num m1 e1, Num m2 e2 =>
      let e := Z.min e1 e2 in
      m1 * 2 ^ (e1 - e) <? m2 * 2 ^ (e2 - e)
  end.

(** [x === y] on numbers. *)
Definition eqb (x y : number) : bool :=
  match x, y with
  | Num m1 e1, Num m2 e2 =>
      let e := Z.min e1 e2 in
      m1 * 2 ^ (e1 - e) =? m2 * 2 ^ (e2 - e)
  | Infinity, Infinity | NegInfinity, NegInfinity => true
  | _, _ => false
  end.

(** [x > 0]. *)
Definition gt_zero (x : number) : bool := lt (Num 0 0) x.

(** [Number.isFinite(x)]. *)
Definition Number_isFinite (x : number) : bool :=
  match x with
  | Num _ _ => true
  | NaN | Infinity | NegInfinity => false
  end.

(** *** Number to text *)

(** The floor of the decimal logarithm of [n / d], for positive [n] and [d]:
    an estimate from the binary logarithm, put right by comparison. *)
Definition ilog10 (n d : Z) : Z :=
  let k := ilog2 n d * 1233 / 4096 in
  let reached (j : Z) := d * 10 ^ Z.max 0 j <=? n * 10 ^ Z.max 0 (- j) in
  if reached (k + 1) then k + 1 else if reached k then k else k - 1.

(** The decimal of [k] digits that reads back as the positive number
    [m * 2 ^ e], if there is one: of the two decimals of [k] digits around
    the number, the one that reads back; when both do, the nearer, and of
    two equally near the even one. *)
Definition candidate (m e k : Z) : option numeric :=
  let n := numerator m e in
  let d := denominator e in
  let p := ilog10 n d + 1 - k in
  let lo := (n * 10 ^ Z.max 0 (- p)) / (d * 10 ^ Z.max 0 p) in
  let hi := lo + 1 in
  let reads_back (s : Z) := eqb (of_decimal s p) (Num m e) in
  match reads_back lo, reads_back hi with
  | false, false => None
  | true, false => Some (mkNumeric lo p)
  | false, true => Some (mkNumeric hi p)
  | true, true =>
      match 2 * n * 10 ^ Z.max 0 (- p) ?= (lo + hi) * d * 10 ^ Z.max 0 p with
      | Lt => Some (mkNumeric lo p)
      | Gt => Some (mkNumeric hi p)
      | Eq => Some (mkNumeric (if Z.even lo then lo else hi) p)
      end
  end.

Fixpoint shortest_from (tries : nat) (m e k : Z) : option numeric :=
  match tries with
  | O => None
  | S tries' =>
      match candidate m e k with
      | Some r => Some r
      | None => shortest_from tries' m e (k + 1)
      end
  end.

(** The decimal with the fewest digits that reads back as [x]: the digits
    [Number.prototype.toString] prints.  Seventeen digits tell any two
    binary64 numbers apart, so the search goes no further; it finds nothing
    for the non-finite numbers and for a pair [m], [e] that is no binary64
    number. *)
Definition shortest (x : number) : option numeric :=
  match x with
  | Num m e =>
      match m ?= 0 with
      | Eq => Some (mkNumeric 0 0)
      | Gt => shortest_from 17 m e 1
      | Lt => option_map (fun r => mkNumeric (- digits r) (scale r))
                (shortest_from 17 (- m) e 1)
      end
  | NaN | Infinity | NegInfinity => None
  end.

(** [x.toString()] as the store reads it when [x] is passed as a statement
    parameter.  The service passes only amounts that [isValidAmount] has
    accepted: finite numbers, for which [shortest] answers. *)
Definition toString (x : number) : numeric :=
  match shortest x with
  | Some r => r
  | None => mkNumeric 0 0
  end.

(** [x.toFixed(2)], in hundredths: the integer [n] with [n / 100] nearest to
    [x], the larger in magnitude of two.  From [1e21] on [toFixed] prints
    the number as [toString] does; there as here the value is far beyond
    what a NUMERIC(18,2) column takes.  [None] stands for the texts NaN,
    Infinity and -Infinity. *)
Definition toFixed_2 (x : number) : option Z :=
  match x with
  | Num m e =>
      Some (Z.sgn m
            * ((200 * numerator (Z.abs m) e + denominator e) / (2 * denominator e)))
  | NaN | Infinity | NegInfinity => None
  end.

(** The hundredths of a number whose text has at most two decimals; [None]
    for any other number. *)
Definition cents (x : number) : option Z :=
  match shortest x with
  | Some r =>
      if 0 <=? scale r + 2 then Some (digits r * 10 ^ (scale r + 2))
      else if digits r mod 10 ^ (- (scale r + 2)) =? 0
           then Some (digits r / 10 ^ (- (scale r + 2)))
           else None
  | None => None
  end.

(** *** Strings *)

(** Truthiness of a [string | undefined]: [undefined] and the empty string
    are falsy. *)
Definition truthy (s : option string) : bool :=
  match s with
  | None => false
  | Some EmptyString => false
  | Some (String _ _) => true
  end.

(** [s || d] for a [string | undefined] on the left. *)
Definition or_else (s : option string) (d : string) : string :=
  match s with
  | None => d
  | Some EmptyString => d
  | Some (String a r) => String a r
  end.

(** [s || null]. *)
Definition or_null (s : option string) : option string :=
  if truthy s then s else None.

End JS.

Import JS.

(** ** utils/validators.ts *)

Definition isValidAmount (amount : number) : bool :=
  gt_zero amount && Number_isFinite amount.

(** ** Rows of the schema (migrations 001 and 003, types/index.ts) *)

Record User : Type := mkUser {
  u_id : string;
  u_email : string
}.

Record Wallet : Type := mkWallet {
  w_id : string;
  w_user_id : string;
  w_currency : string;
  w_balance : Z
}.

Inductive TransactionType : Type :=
| credit_type
| debit_type
| transfer_in
| transfer_out.

Inductive TransactionStatus : Type :=
| success
| pending
| failed.

(** A row of [transactions].  [txn_id] stands for the generated UUID (the
    number of rows before it); the [created_at] timestamp is left out. *)
Record Transaction : Type := mkTransaction {
  txn_id : nat;
  wallet_id : string;
  user_id : string;
  type : TransactionType;
  amount : Z;
  reference : string;
  description : option string;
  balance_before : Z;
  balance_after : Z;
  status : TransactionStatus
}.

(** [transaction.amount], for code in which [amount] names an argument. *)
Definition amount_of (transaction : Transaction) : Z := amount transaction.

(** A row of [audit_logs] written by [auditService.logTransaction]:
    event type TRANSACTION_CREATED with data {transactionId, type, amount}. *)
Record AuditLog : Type := mkAuditLog {
  actor_id : string;
  event_transactionId : nat;
  event_type : TransactionType;
  event_amount : Z;
  ip_address : option string
}.

Record Database : Type := mkDatabase {
  users : list User;
  wallets : list Wallet;
  transactions : list Transaction;
  audit_logs : list AuditLog
}.

(** types/index.ts, [TransferResponse]; the two balances are texts printed
    by [toFixed(2)]. *)
Record TransferResponse : Type := mkTransferResponse {
  sender_transaction : Transaction;
  recipient_transaction : Transaction;
  sender_new_balance : option Z;
  recipient_new_balance : option Z
}.

(** types/index.ts, [TransactionHistory]. *)
Record TransactionHistory : Type := mkTransactionHistory {
  history_transactions : list Transaction;
  history_total : Z;
  history_page : Z;
  history_totalPages : Z
}.

(** ** Thrown values *)

(** What makes a statement fail: a parameter that is no text of a UUID, a
    value out of the range of its column, a violated constraint of the
    schema. *)
Inductive PgConstraint : Type :=
| invalid_text_representation
| numeric_field_overflow
| wallets_balance_check
| transactions_amount_check
| transactions_reference_key
| transactions_wallet_id_fkey
| transactions_user_id_fkey.

Inductive Thrown : Type :=
| AppError (statusCode : Z) (message : string)
| DatabaseError (violated : PgConstraint).

Inductive Result (A : Type) : Type :=
| Ok (value : A)
| Err (thrown : Thrown).

Arguments Ok {A} value.
Arguments Err {A} thrown.

(** The errors of the service under the names the specification gives them. *)
Definition InvalidAmount : Thrown := AppError 400 "Invalid amount".
Definition InvalidRequest : Thrown :=
  AppError 400 "Either recipient_email or recipient_user_id must be provided".
Definition DuplicateReference : Thrown :=
  AppError 409 "Transaction reference already exists".
Definition AccountNotFound : Thrown := AppError 404 "Wallet not found".
Definition InsufficientBalance : Thrown := AppError 400 "Insufficient balance".
Definition RecipientNotFound : Thrown := AppError 404 "Recipient user not found".
Definition SelfTransferNotAllowed : Thrown :=
  AppError 400 "Cannot transfer to yourself".

(** ** The connection monad *)

(** State of a connection: the database and the wallet rows locked so far
    with FOR UPDATE, oldest first. *)
Record Client : Type := mkClient {
  db : Database;
  locked : list string
}.

Definition M (A : Type) : Type := Client -> Result A * Client.

Definition ret {A : Type} (a : A) : M A := fun c => (Ok a, c).

Definition bind {A B : Type} (m : M A) (k : A -> M B) : M B :=
  fun c =>
    match m c with
    | (Ok a, c') => k a c'
    | (Err e, c') => (Err e, c')
    end.

Definition throw {A : Type} (e : Thrown) : M A := fun c => (Err e, c).

Declare Scope service_scope.
Delimit Scope service_scope with service.
Notation "x <- m ;; k" := (bind m (fun x => k))
  (at level 61, m at next level, right associativity) : service_scope.
Notation "m ;;; k" := (bind m (fun _ => k))
  (at level 61, right associativity) : service_scope.
Local Open Scope service_scope.

(** Modelled from the spec: [db.transaction] of database/postgres.ts, which is
    not among the sources (only its test is).  The callback runs between BEGIN
    and COMMIT; when it throws, ROLLBACK discards its writes and the error is
    thrown again: either everything the callback wrote persists, or nothing.
    The lock log is kept in both cases, as a record of what was acquired. *)
Definition db_transaction {A : Type} (callback : M A) : M A :=
  fun c =>
    match callback c with
    | (Ok a, c') => (Ok a, c')
    | (Err e, c') => (Err e, mkClient (db c) (locked c'))
    end.

(** ** Statements issued by the service *)
(** ** The store's conversions *)

Module Uuid.

(** The value of a hexadecimal digit, of either case. *)
Definition hex_value (a : ascii) : option N :=
  let n := N_of_ascii a in
  if ((48 <=? n) && (n <=? 57))%N then Some (n - 48)%N
  else if ((97 <=? n) && (n <=? 102))%N then Some (n - 87)%N
  else if ((65 <=? n) && (n <=? 70))%N then Some (n - 55)%N
  else None.

(** The digit the store prints for a value below 16. *)
Definition hex_char (v : N) : ascii :=
  ascii_of_N (if (v <? 10)%N then v + 48 else v + 87)%N.

(** The printed form has a hyphen after the bytes 3, 5, 7 and 9. *)
Definition hyphen_after (i : nat) : bool :=
  match i with
  | 3%nat | 5%nat | 7%nat | 9%nat => true
  | _ => false
  end.

(** The bytes [i], [i + 1], ... of a UUID read from [src], [count] of them:
    two hexadecimal digits each, and after a byte of odd index other than
    the last a hyphen is skipped when there is one.  Returns the bytes in
    printed form and what is left of [src]. *)
Fixpoint read_bytes (count i : nat) (src : string) : option (string * string) :=
  match count with
  | O => Some (EmptyString, src)
  | S count' =>
      match src with
      | String a (String b rest) =>
          match hex_value a, hex_value b with
          | Some x, Some y =>
              let rest' :=
                match rest with
                | String "-" r => if Nat.odd i && (i <? 15)%nat then r else rest
                | _ => rest
                end in
              match read_bytes count' (S i) rest' with
              | Some (printed, tail) =>
                  Some (String (hex_char x)
                          (String (hex_char y)
                             (if hyphen_after i then String "-" printed
                              else printed)),
                        tail)
              | None => None
              end
          | _, _ => None
          end
      | _ => None
      end
  end.

(** Input conversion of the type UUID: sixteen bytes, optionally within
    braces, nothing before and nothing after.  Returns the value in the form
    the store prints it. *)
Definition uuid_in (source : string) : option string :=
  let '(braces, src) :=
    match source with
    | String "{" r => (true, r)
    | _ => (false, source)
    end in
  match read_bytes 16 0 src with
  | Some (printed, tail) =>
      let tail := if braces
                  then match tail with
                       | String "}" r => Some r
                       | _ => None
                       end
                  else Some tail in
      match tail with
      | Some EmptyString => Some printed
      | _ => None
      end
  | None => None
  end.

End Uuid.

(** ** Statements issued by the service *)

Module Pg.

(** Range of a NUMERIC(18,2) value, in hundredths. *)
Definition numeric_18_2 (x : Z) : bool :=
  (- 10 ^ 18 <? x) && (x <? 10 ^ 18).

(** [n / d] rounded to an integer, half away from zero, for positive [d]. *)
Definition round_half_away (n d : Z) : Z :=
  Z.sgn n * ((2 * Z.abs n + d) / (2 * d)).

(** [balance + $1] as a NUMERIC(18,2) column takes it, in hundredths: the
    sum is exact and is rounded to two places on assignment. *)
Definition plus (balance : Z) (x : numeric) : Z :=
  let unit := 10 ^ Z.max 0 (- (scale x + 2)) in
  round_half_away (balance * unit + digits x * 10 ^ Z.max 0 (scale x + 2)) unit.

Definition opp (x : numeric) : numeric := mkNumeric (- digits x) (scale x).

(** A decimal assigned to a NUMERIC(18,2) column, in hundredths. *)
Definition to_numeric_18_2 (x : numeric) : Z := plus 0 x.

Definition set_wallets (d : Database) (ws : list Wallet) : Database :=
  mkDatabase (users d) ws (transactions d) (audit_logs d).

Definition set_transactions (d : Database) (ts : list Transaction) : Database :=
  mkDatabase (users d) (wallets d) ts (audit_logs d).

Definition set_audit_logs (d : Database) (ls : list AuditLog) : Database :=
  mkDatabase (users d) (wallets d) (transactions d) ls.

(** A statement whose text parameter [uid] meets a UUID column: the
    parameter is converted first, and the statement fails when it is no text
    of a UUID. *)
Definition with_uuid {A : Type} (uid : string) (statement : string -> M A) : M A :=
  match Uuid.uuid_in uid with
  | Some u => statement u
  | None => throw (DatabaseError invalid_text_representation)
  end.

(** SELECT id FROM transactions WHERE reference = $1 *)
Definition select_transactions_by_reference (ref : string) : M (list Transaction) :=
  fun c => (Ok (filter (fun t => (reference t =? ref)%string) (transactions (db c))), c).

(** SELECT ... FROM transactions WHERE reference = $1 AND user_id = $2 *)
Definition select_transactions_by_reference_and_user (ref uid : string)
  : M (list Transaction) :=
  with_uuid uid (fun u c =>
    (Ok (filter (fun t => (reference t =? ref)%string && (user_id t =? u)%string)
           (transactions (db c))), c)).

(** SELECT id FROM users WHERE email = $1 *)
Definition select_users_by_email (email : string) : M (list User) :=
  fun c => (Ok (filter (fun u => (u_email u =? email)%string) (users (db c))), c).

(** SELECT id FROM users WHERE id = $1 *)
Definition select_users_by_id (uid : string) : M (list User) :=
  with_uuid uid (fun i c =>
    (Ok (filter (fun u => (u_id u =? i)%string) (users (db c))), c)).

(** SELECT ... FROM wallets WHERE user_id = $1 *)
Definition select_wallets_by_user (uid : string) : M (list Wallet) :=
  with_uuid uid (fun u c =>
    (Ok (filter (fun w => (w_user_id w =? u)%string) (wallets (db c))), c)).

(** SELECT id, balance FROM wallets WHERE user_id = $1 FOR UPDATE:
    the rows found are locked until the transaction ends. *)
Definition select_wallets_for_update (uid : string) : M (list Wallet) :=
  with_uuid uid (fun u c =>
    let rows := filter (fun w => (w_user_id w =? u)%string) (wallets (db c)) in
    (Ok rows, mkClient (db c) (locked c ++ map w_id rows))).

(** In the statements below the parameter [wid] is the [id] of a wallet row
    just read: a text the store printed, which [Uuid.uuid_in] gives back as
    it is. *)

Definition add_to_balance (delta : numeric) (wid : string) (w : Wallet) : Wallet :=
  if (w_id w =? wid)%string
  then mkWallet (w_id w) (w_user_id w) (w_currency w) (plus (w_balance w) delta)
  else w.

(** Column constraints of [wallets.balance] on the rows a statement wrote:
    NUMERIC(18,2) and CHECK (balance >= 0). *)
Definition balance_violation (wid : string) (ws : list Wallet) : option PgConstraint :=
  let written := filter (fun w => (w_id w =? wid)%string) ws in
  if negb (forallb (fun w => numeric_18_2 (w_balance w)) written)
  then Some numeric_field_overflow
  else if negb (forallb (fun w => 0 <=? w_balance w) written)
  then Some wallets_balance_check
  else None.

(** UPDATE wallets SET balance = balance + $1 WHERE id = $2
    (with [delta] the opposite of the parameter for [balance - $1]). *)
Definition update_wallet_balance (delta : numeric) (wid : string) : M unit :=
  fun c =>
    let ws := map (add_to_balance delta wid) (wallets (db c)) in
    match balance_violation wid ws with
    | Some v => (Err (DatabaseError v), c)
    | None => (Ok tt, mkClient (set_wallets (db c) ws) (locked c))
    end.

(** Constraints evaluated by INSERT INTO transactions: the NUMERIC(18,2)
    columns, CHECK (amount > 0), UNIQUE (reference) and the two foreign
    keys.  The CHECK on [type] admits the four types after migration 003,
    the one on [status] its three values. *)
Definition transaction_violation (d : Database) (row : Transaction)
  : option PgConstraint :=
  if negb (numeric_18_2 (amount row) && numeric_18_2 (balance_before row)
           && numeric_18_2 (balance_after row))
  then Some numeric_field_overflow
  else if negb (0 <? amount row)
  then Some transactions_amount_check
  else if existsb (fun t => (reference t =? reference row)%string) (transactions d)
  then Some transactions_reference_key
  else if negb (existsb (fun w => (w_id w =? wallet_id row)%string) (wallets d))
  then Some transactions_wallet_id_fkey
  else if negb (existsb (fun u => (u_id u =? user_id row)%string) (users d))
  then Some transactions_user_id_fkey
  else None.

(** INSERT INTO transactions (...) VALUES (...) RETURNING ..., read through
    [rows[0]]: the row as stored, the amount rounded to two places.  The
    snapshots arrive as texts of [toFixed(2)]; a text that is no finite
    number is refused as out of range (the service gets there only with
    finite snapshots: the UPDATE before has taken the new balance). *)
Definition insert_transaction (wid uid : string) (ty : TransactionType)
    (amt : numeric) (ref : string) (descr : option string)
    (before after : option Z) (st : TransactionStatus) : M Transaction :=
  with_uuid uid (fun u c =>
    match before, after with
    | Some balanceBefore, Some balanceAfter =>
        let row := mkTransaction (List.length (transactions (db c))) wid u ty
                     (to_numeric_18_2 amt) ref descr balanceBefore balanceAfter
                     st in
        match transaction_violation (db c) row with
        | Some v => (Err (DatabaseError v), c)
        | None =>
            (Ok row,
             mkClient (set_transactions (db c) (transactions (db c) ++ [row]))
               (locked c))
        end
    | _, _ => (Err (DatabaseError numeric_field_overflow), c)
    end).

(** SELECT COUNT( * ) FROM transactions WHERE user_id = $1, read through
    [parseInt(rows[0].count, 10)]. *)
Definition count_transactions_by_user (uid : string) : M Z :=
  with_uuid uid (fun u c =>
    (Ok (Z.of_nat
           (List.length
              (filter (fun t => (user_id t =? u)%string) (transactions (db c))))),
     c)).

(** SELECT ... FROM transactions WHERE user_id = $1
    ORDER BY created_at DESC LIMIT $2 OFFSET $3.
    [created_at] is not a column of the model: the table keeps its rows in
    insertion order, and in a run of one operation after the other the rows
    of one owner are written by transactions that begin one after the other,
    so newest first is the reverse of the insertion order. *)
Definition select_transactions_page (uid : string) (limit offset : Z)
  : M (list Transaction) :=
  with_uuid uid (fun u c =>
    (Ok (firstn (Z.to_nat limit)
           (skipn (Z.to_nat offset)
              (rev (filter (fun t => (user_id t =? u)%string)
                      (transactions (db c)))))),
     c)).

End Pg.

(** ** services/auditService.ts *)

Module AuditService.

(** [log]: INSERT INTO audit_logs inside try/catch; a failing insert (the
    actor is no text of a UUID, or is not a user) is swallowed. *)
Definition log (actorId : string) (transactionId : nat) (ty : TransactionType)
    (amt : Z) (ipAddress : option string) : M unit :=
  fun c =>
    match Uuid.uuid_in actorId with
    | Some actor =>
        if existsb (fun u => (u_id u =? actor)%string) (users (db c))
        then (Ok tt,
              mkClient
                (Pg.set_audit_logs (db c)
                   (audit_logs (db c)
                    ++ [mkAuditLog actor transactionId ty amt (or_null ipAddress)]))
                (locked c))
        else (Ok tt, c)
    | None => (Ok tt, c)
    end.

Definition logTransaction (userId : string) (transactionId : nat)
    (ty : TransactionType) (amt : Z) (ipAddress : option string) : M unit :=
  log userId transactionId ty amt ipAddress.

End AuditService.

(** ** services/walletService.ts *)

Module WalletService.

(** In each operation [generated] is what [generateTransactionReference()]
    returns when the operation calls it (utils/reference.ts builds it from
    the clock, a counter and random bytes). *)

Definition getWalletByUserId (userId : string) : M (option Wallet) :=
  result <- Pg.select_wallets_by_user userId ;;
  ret (hd_error result).

Definition getBalance (userId : string) : M (Z * string) :=
  wallet <- getWalletByUserId userId ;;
  match wallet with
  | None => throw (AppError 404 "Wallet not found")
  | Some w => ret (w_balance w, w_currency w)
  end.

Definition credit (userId : string) (amount : number)
    (description reference ipAddress : option string) (generated : string)
  : M Transaction :=
  if negb (isValidAmount amount) then throw (AppError 400 "Invalid amount")
  else
    let txnReference := or_else reference generated in
    existingTxn <- Pg.select_transactions_by_reference txnReference ;;
    match existingTxn with
    | _ :: _ => throw (AppError 409 "Transaction reference already exists")
    | [] =>
        transaction <- db_transaction (
          walletResult <- Pg.select_wallets_for_update userId ;;
          match walletResult with
          | [] => throw (AppError 404 "Wallet not found")
          | wallet :: _ =>
              let balanceBefore := parseFloat (w_balance wallet) in
              let balanceAfter := JS.add balanceBefore amount in
              Pg.update_wallet_balance (toString amount) (w_id wallet) ;;;
              Pg.insert_transaction (w_id wallet) userId credit_type
                (toString amount) txnReference (or_null description)
                (toFixed_2 balanceBefore) (toFixed_2 balanceAfter) success
          end) ;;
        AuditService.logTransaction userId (txn_id transaction) credit_type
          (amount_of transaction) ipAddress ;;;
        ret transaction
    end.

Definition debit (userId : string) (amount : number)
    (description reference ipAddress : option string) (generated : string)
  : M Transaction :=
  if negb (isValidAmount amount) then throw (AppError 400 "Invalid amount")
  else
    let txnReference := or_else reference generated in
    existingTxn <- Pg.select_transactions_by_reference txnReference ;;
    match existingTxn with
    | _ :: _ => throw (AppError 409 "Transaction reference already exists")
    | [] =>
        transaction <- db_transaction (
          walletResult <- Pg.select_wallets_for_update userId ;;
          match walletResult with
          | [] => throw (AppError 404 "Wallet not found")
          | wallet :: _ =>
              let balanceBefore := parseFloat (w_balance wallet) in
              if JS.lt balanceBefore amount
              then throw (AppError 400 "Insufficient balance")
              else
                let balanceAfter := JS.sub balanceBefore amount in
                Pg.update_wallet_balance (Pg.opp (toString amount))
                  (w_id wallet) ;;;
                Pg.insert_transaction (w_id wallet) userId debit_type
                  (toString amount) txnReference (or_null description)
                  (toFixed_2 balanceBefore) (toFixed_2 balanceAfter) success
          end) ;;
        AuditService.logTransaction userId (txn_id transaction) debit_type
          (amount_of transaction) ipAddress ;;;
        ret transaction
    end.

Definition getTransactionByReference (ref userId : string)
  : M (option Transaction) :=
  result <- Pg.select_transactions_by_reference_and_user ref userId ;;
  match result with
  | [] => ret None
  | row :: _ => ret (Some row)
  end.

(** The recipient resolution of [transfer] (the [let recipientId] block):
    the e-mail address is looked at first, the identifier only when no
    e-mail address is given.  By e-mail address the recipient is the [id]
    of the row found, as the store prints it; by identifier it is the
    identifier as the caller wrote it. *)
Definition resolveRecipient (recipientEmail recipientUserId : option string)
  : M string :=
  if truthy recipientEmail then
    recipientResult <-
      Pg.select_users_by_email (or_else recipientEmail EmptyString) ;;
    match recipientResult with
    | [] => throw (AppError 404 "Recipient user not found")
    | row :: _ => ret (u_id row)
    end
  else if truthy recipientUserId then
    recipientResult <-
      Pg.select_users_by_id (or_else recipientUserId EmptyString) ;;
    match recipientResult with
    | [] => throw (AppError 404 "Recipient user not found")
    | _ :: _ => ret (or_else recipientUserId EmptyString)
    end
  else throw (AppError 400 "Recipient identifier is required").

Definition transfer (senderUserId : string)
    (recipientEmail recipientUserId : option string) (amount : number)
    (description reference ipAddress : option string) (generated : string)
  : M TransferResponse :=
  if negb (isValidAmount amount) then throw (AppError 400 "Invalid amount")
  else if negb (truthy recipientEmail) && negb (truthy recipientUserId)
  then throw (AppError 400
                "Either recipient_email or recipient_user_id must be provided")
  else
    let txnReference := or_else reference generated in
    existingTxn <- Pg.select_transactions_by_reference txnReference ;;
    match existingTxn with
    | _ :: _ => throw (AppError 409 "Transaction reference already exists")
    | [] =>
        recipientId <- resolveRecipient recipientEmail recipientUserId ;;
        if (senderUserId =? recipientId)%string
        then throw (AppError 400 "Cannot transfer to yourself")
        else
          result <- db_transaction (
            senderWalletResult <- Pg.select_wallets_for_update senderUserId ;;
            match senderWalletResult with
            | [] => throw (AppError 404 "Sender wallet not found")
            | senderWallet :: _ =>
                let senderBalanceBefore := parseFloat (w_balance senderWallet) in
                if JS.lt senderBalanceBefore amount
                then throw (AppError 400 "Insufficient balance")
                else
                  recipientWalletResult <-
                    Pg.select_wallets_for_update recipientId ;;
                  match recipientWalletResult with
                  | [] => throw (AppError 404 "Recipient wallet not found")
                  | recipientWallet :: _ =>
                      let recipientBalanceBefore :=
                        parseFloat (w_balance recipientWallet) in
                      let senderBalanceAfter :=
                        JS.sub senderBalanceBefore amount in
                      let recipientBalanceAfter :=
                        JS.add recipientBalanceBefore amount in
                      Pg.update_wallet_balance (Pg.opp (toString amount))
                        (w_id senderWallet) ;;;
                      Pg.update_wallet_balance (toString amount)
                        (w_id recipientWallet) ;;;
                      let transferDescription := or_else description "Transfer" in
                      senderTxn <-
                        Pg.insert_transaction (w_id senderWallet) senderUserId
                          transfer_out (toString amount) (txnReference ++ "-OUT")
                          (Some (transferDescription ++ " to user " ++ recipientId))
                          (toFixed_2 senderBalanceBefore)
                          (toFixed_2 senderBalanceAfter) success ;;
                      recipientTxn <-
                        Pg.insert_transaction (w_id recipientWallet) recipientId
                          transfer_in (toString amount) (txnReference ++ "-IN")
                          (Some (transferDescription ++ " from user "
                                 ++ senderUserId))
                          (toFixed_2 recipientBalanceBefore)
                          (toFixed_2 recipientBalanceAfter) success ;;
                      ret (mkTransferResponse senderTxn recipientTxn
                             (toFixed_2 senderBalanceAfter)
                             (toFixed_2 recipientBalanceAfter))
                  end
            end) ;;
          AuditService.logTransaction senderUserId
            (txn_id (sender_transaction result)) transfer_out
            (amount_of (sender_transaction result)) ipAddress ;;;
          AuditService.logTransaction recipientId
            (txn_id (recipient_transaction result)) transfer_in
            (amount_of (recipient_transaction result)) ipAddress ;;;
          ret result
    end.

(** [Math.ceil(total / limit)] for a positive [limit]. *)
Definition Math_ceil_div (total limit : Z) : Z := - ((- total) / limit).

(** [page] and [limit] are the arguments as passed; [None] is an argument
    left out, for which the defaults 1 and 20 stand in. *)
Definition getTransactionHistory (userId : string) (page limit : option Z)
  : M TransactionHistory :=
  let page := match page with Some p => p | None => 1 end in
  let limit := match limit with Some l => l | None => 20 end in
  let page := if page <? 1 then 1 else page in
  let limit := if (limit <? 1) || (100 <? limit) then 20 else limit in
  let offset := (page - 1) * limit in
  total <- Pg.count_transactions_by_user userId ;;
  result <- Pg.select_transactions_page userId limit offset ;;
  ret (mkTransactionHistory result total page (Math_ceil_div total limit)).

End WalletService.

(** ** Running the service *)

(** A call on a fresh connection: no row lock is held when it starts. *)
Definition run {A : Type} (m : M A) (d : Database) : Result A * Client :=
  m (mkClient d []).

Definition outcome {A : Type} (r : Result A * Client) : Result A := fst r.
Definition store {A : Type} (r : Result A * Client) : Database := db (snd r).
Definition lock_order {A : Type} (r : Result A * Client) : list string :=
  locked (snd r).

(** The balance [getBalance] reports for an owner, if the owner has a wallet. *)
Definition balance_of (d : Database) (userId : string) : option Z :=
  match outcome (run (WalletService.getBalance userId) d) with
  | Ok (balance, _) => Some balance
  | Err _ => None
  end.

(** *** Sequences of mutations *)

Inductive Operation : Type :=
| Credit (userId : string) (amount : number)
    (description reference ipAddress : option string) (generated : string)
| Debit (userId : string) (amount : number)
    (description reference ipAddress : option string) (generated : string)
| Transfer (senderUserId : string) (recipientEmail recipientUserId : option string)
    (amount : number) (description reference ipAddress : option string)
    (generated : string).

(** The database an operation leaves behind, whether it commits or throws. *)
Definition perform (d : Database) (op : Operation) : Database :=
  match op with
  | Credit u a ds r ip g => store (run (WalletService.credit u a ds r ip g) d)
  | Debit u a ds r ip g => store (run (WalletService.debit u a ds r ip g) d)
  | Transfer u e i a ds r ip g =>
      store (run (WalletService.transfer u e i a ds r ip g) d)
  end.

Definition perform_all (ops : list Operation) (d : Database) : Database :=
  fold_left perform ops d.

(** ** Properties of records and of the store *)

(** The signed amount of a record: [+amount] for a credit or an incoming
    transfer, [-amount] for a debit or an outgoing transfer. *)
Definition signed_amount (t : Transaction) : Z :=
  match type t with
  | credit_type | transfer_in => amount t
  | debit_type | transfer_out => - amount t
  end.

Definition snapshot_consistent (t : Transaction) : Prop :=
  balance_after t = balance_before t + signed_amount t.

Fixpoint distinct (l : list string) : bool :=
  match l with
  | [] => true
  | x :: r => negb (existsb (String.eqb x) r) && distinct r
  end.

(** PRIMARY KEY (id) and UNIQUE (user_id) of [wallets]. *)
Definition wallets_keyed (d : Database) : bool :=
  distinct (map w_id (wallets d)) && distinct (map w_user_id (wallets d)).

(** UNIQUE (reference) of [transactions]. *)
Definition references_unique (d : Database) : bool :=
  distinct (map reference (transactions d)).

(** CHECK (balance >= 0) of [wallets]. *)
Definition balances_nonneg (d : Database) : bool :=
  forallb (fun w => 0 <=? w_balance w) (wallets d).

(** Some record of the store carries the reference. *)
Definition reference_used (d : Database) (ref : string) : bool :=
  existsb (fun t => (reference t =? ref)%string) (transactions d).

(** ** Two sessions contending for row locks *)

Module RowLocks.

(** Row locks as PostgreSQL grants them to SELECT ... FOR UPDATE (the
    exclusive per-account locks of section 4.3 of the specification): a row
    is locked by one transaction at a time, and a transaction gives its locks
    back when it ends.  A session is a transaction in flight: the rows it has
    locked and the rows it has still to lock, in the order its code asks for
    them. *)
Record Session : Type := mkSession {
  holding : list string;
  waiting : list string
}.

Definition begin (order : list string) : Session := mkSession [] order.

Definition finished (s : Session) : bool :=
  match holding s, waiting s with
  | [], [] => true
  | _, _ => false
  end.

(** One step of session [me] next to session [other]: take the next lock
    when [other] does not hold it; with every lock taken, commit and
    release.  [None] when [me] cannot move. *)
Definition advance (me other : Session) : option Session :=
  match waiting me with
  | l :: rest =>
      if existsb (String.eqb l) (holding other) then None
      else Some (mkSession (holding me ++ [l]) rest)
  | [] =>
      match holding me with
      | [] => None
      | _ :: _ => Some (mkSession [] [])
      end
  end.

Inductive step : Session * Session -> Session * Session -> Prop :=
| step_left (s1 s1' s2 : Session) :
    advance s1 s2 = Some s1' -> step (s1, s2) (s1', s2)
| step_right (s1 s2 s2' : Session) :
    advance s2 s1 = Some s2' -> step (s1, s2) (s1, s2').

Inductive reachable (start : Session * Session) : Session * Session -> Prop :=
| reach_start : reachable start start
| reach_step (st st' : Session * Session) :
    reachable start st -> step st st' -> reachable start st'.

(** Neither session can move and one of them has not finished. *)
Definition deadlocked (st : Session * Session) : bool :=
  match advance (fst st) (snd st), advance (snd st) (fst st) with
  | None, None => negb (finished (fst st) && finished (snd st))
  | _, _ => false
  end.

End RowLocks.
(** ** A small ledger *)

Module Scenario.

(** Three owners and their wallets. *)
Definition a : string := "aaaaaaaa-aaaa-4aaa-8aaa-aaaaaaaaaaaa".
Definition b : string := "bbbbbbbb-bbbb-4bbb-8bbb-bbbbbbbbbbbb".
Definition c : string := "cccccccc-cccc-4ccc-8ccc-cccccccccccc".
Definition wallet_a : string := "0000000a-0000-4000-8000-00000000000a".
Definition wallet_b : string := "0000000b-0000-4000-8000-00000000000b".
Definition wallet_c : string := "0000000c-0000-4000-8000-00000000000c".

(** The wallet of [a] at 500.00, that of [b] at 200.00, that of [c] empty;
    no record yet. *)
Definition ledger : Database :=
  mkDatabase
    [mkUser a "a@example.com"; mkUser b "b@example.com";
     mkUser c "c@example.com"]
    [mkWallet wallet_a a "NGN" 50000; mkWallet wallet_b b "NGN" 20000;
     mkWallet wallet_c c "NGN" 0]
    [] [].

(** Transfer(a -> b, 100.00, reference T1), the recipient given by
    identifier. *)
Definition transfer_T1 : M TransferResponse :=
  WalletService.transfer a None (Some b) (of_decimal 100 0) None (Some "T1")
    None "TXN-1730000000-001-ABC123".

(** The opposite transfer, b -> a, 50.00, reference T2. *)
Definition transfer_T2 : M TransferResponse :=
  WalletService.transfer b None (Some a) (of_decimal 50 0) None (Some "T2")
    None "TXN-1730000000-002-ABC124".

(** Credit(a, 500.00, reference R1). *)
Definition credit_R1 : M Transaction :=
  WalletService.credit a (of_decimal 500 0) None (Some "R1") None
    "TXN-1730000000-003-ABC125".

(** Debit(a, 900.00, reference D1): more than the wallet holds. *)
Definition debit_D1 : M Transaction :=
  WalletService.debit a (of_decimal 900 0) None (Some "D1") None
    "TXN-1730000000-004-ABC126".

(** A transfer that names two different recipients: [b] by e-mail address
    and [c] by identifier. *)
Definition transfer_two_selectors : M TransferResponse :=
  WalletService.transfer a (Some "b@example.com") (Some c) (of_decimal 100 0)
    None (Some "T3") None "TXN-1730000000-005-ABC127".

(** The ledger once [transfer_T1] has committed. *)
Definition ledger_after_T1 : Database := store (run transfer_T1 ledger).

(** Half a hundredth: the number the request body [{"amount": 0.005}]
    carries. *)
Definition half_a_cent : number := of_decimal 5 (- 3).

(** Transfer(a -> c, 0.005, reference T5). *)
Definition transfer_half_a_cent : M TransferResponse :=
  WalletService.transfer a None (Some c) half_a_cent None (Some "T5") None
    "TXN-1730000000-008-ABC130".

(** Credit(a, 0.005, reference R5). *)
Definition credit_half_a_cent : M Transaction :=
  WalletService.credit a half_a_cent None (Some "R5") None
    "TXN-1730000000-009-ABC131".

(** A ledger in which the wallet of [a] holds 70368744177664.01, just above
    [2 ^ 46], where two neighbouring binary64 numbers are 0.015625 apart. *)
Definition large_ledger : Database :=
  mkDatabase
    [mkUser a "a@example.com"]
    [mkWallet wallet_a a "NGN" 7036874417766401]
    [] [].

(** Debit(a, 70368744177664.02, reference D2): one hundredth more than the
    wallet holds. *)
Definition debit_one_cent_more : M Transaction :=
  WalletService.debit a (of_decimal 7036874417766402 (- 2)) None (Some "D2") None
    "TXN-1730000000-010-ABC132".

(** A ledger in which the wallet of [a] holds 140737488355328.00, that is
    [2 ^ 47], where two neighbouring binary64 numbers are 0.03125 apart. *)
Definition vast_ledger : Database :=
  mkDatabase
    [mkUser a "a@example.com"]
    [mkWallet wallet_a a "NGN" 14073748835532800]
    [] [].

(** Credit(a, 0.01, reference R7). *)
Definition credit_one_cent : M Transaction :=
  WalletService.credit a (of_decimal 1 (- 2)) None (Some "R7") None
    "TXN-1730000000-012-ABC134".

(** Debit(a, 140737488355328.01, reference D3): one hundredth more than the
    wallet of [vast_ledger] holds. *)
Definition debit_one_cent_more_vast : M Transaction :=
  WalletService.debit a (of_decimal 14073748835532801 (- 2)) None (Some "D3")
    None "TXN-1730000000-013-ABC135".

(** The identifier of [a] in upper case: another text of the same UUID. *)
Definition a_upper_case : string := "AAAAAAAA-AAAA-4AAA-8AAA-AAAAAAAAAAAA".

(** Transfer(a -> a, 100.00, reference T6), the recipient given by the
    identifier of [a] in upper case. *)
Definition transfer_to_self : M TransferResponse :=
  WalletService.transfer a None (Some a_upper_case) (of_decimal 100 0) None
    (Some "T6") None "TXN-1730000000-011-ABC133".

End Scenario.

(** The rows [getTransactionHistory] returns for a page. *)
Definition history_rows (d : Database) (userId : string) (page limit : option Z)
  : list Transaction :=
  match outcome (run (WalletService.getTransactionHistory userId page limit) d) with
  | Ok h => history_transactions h
  | Err _ => []
  end.

(** The owner's records, newest first. *)
Definition history_of (d : Database) (userId : string) : list Transaction :=
  rev (filter (fun t => (user_id t =? userId)%string) (transactions d)).

(** ** utils/reference.ts *)

Module Reference.

(** [n.toString()] for a non-negative integer: its decimal digits. *)
Definition toString (n : N) : string := NilEmpty.string_of_uint (N.to_uint n).

Fixpoint replicate (n : nat) (a : ascii) : string :=
  match n with
  | O => EmptyString
  | S n' => String a (replicate n' a)
  end.

(** [s.padStart(targetLength, fill)] with a fill string of one character. *)
Definition padStart (targetLength : nat) (fill : ascii) (s : string) : string :=
  (replicate (targetLength - String.length s) fill ++ s)%string.

(** [toUpperCase] on one character of the ASCII range. *)
Definition upper (a : ascii) : ascii :=
  let n := N_of_ascii a in
  if ((97 <=? n) && (n <=? 122))%N then ascii_of_N (n - 32) else a.

Fixpoint toUpperCase (s : string) : string :=
  match s with
  | EmptyString => EmptyString
  | String a r => String (upper a) (toUpperCase r)
  end.

(** One hexadecimal digit, in lower case as [toString("hex")] writes it. *)
Definition hex_digit (n : N) : ascii :=
  if (n <? 10)%N then ascii_of_N (48 + n) else ascii_of_N (87 + n).

(** A byte as two hexadecimal digits. *)
Definition hex_byte (b : ascii) : string :=
  String (hex_digit (N_of_ascii b / 16))
    (String (hex_digit (N_of_ascii b mod 16)) EmptyString).

(** [randomBytes(3).toString("hex")], the three bytes being given. *)
Definition hex3 (random : ascii * ascii * ascii) : string :=
  let '(b1, b2, b3) := random in
  (hex_byte b1 ++ hex_byte b2 ++ hex_byte b3)%string.

(** [generateTransactionReference] on the module's [counter]: [timestamp] is
    what [Date.now()] returns and [random] what [randomBytes(3)] returns at
    this call.  The result comes with the new value of [counter]. *)
Definition generateTransactionReference (counter : N) (timestamp : N)
    (random : ascii * ascii * ascii) : string * N :=
  let randomPart := hex3 random in
  let counter := ((counter + 1) mod 1000)%N in
  let counterPart := padStart 3 "0" (toString counter) in
  (toUpperCase ("TXN-" ++ toString timestamp ++ "-" ++ counterPart ++ "-"
                ++ randomPart)%string,
   counter).

(** The references of consecutive calls, the counter threaded through. *)
Fixpoint generate_all (counter : N) (calls : list (N * (ascii * ascii * ascii)))
  : list string :=
  match calls with
  | [] => []
  | (timestamp, random) :: rest =>
      let (ref, counter') := generateTransactionReference counter timestamp random in
      ref :: generate_all counter' rest
  end.

(** Decimal digits only. *)
Fixpoint digits_only (s : string) : bool :=
  match s with
  | EmptyString => true
  | String a r =>
      let n := N_of_ascii a in
      ((48 <=? n) && (n <=? 57))%N && digits_only r
  end.

(** Digits and the capital letters A to F only. *)
Fixpoint upper_hex_only (s : string) : bool :=
  match s with
  | EmptyString => true
  | String a r =>
      let n := N_of_ascii a in
      (((48 <=? n) && (n <=? 57)) || ((65 <=? n) && (n <=? 70)))%N
      && upper_hex_only r
  end.

End Reference.

(** ** Regular expressions

    The patterns of utils/validators.ts are run by [RegExp.prototype.test];
    both are anchored with ^ and $, so [test] asks whether the whole string
    belongs to the pattern.  Strings are sequences of code units below 256. *)

Module Regex.

Inductive regex : Type :=
| Empty
| Eps
| Class (p : ascii -> bool)
| Seq (r1 r2 : regex)
| Alt (r1 r2 : regex)
| Star (r : regex).

(** [r+], [r?] and [r{0,n}]. *)
Definition plus (r : regex) : regex := Seq r (Star r).
Definition opt (r : regex) : regex := Alt r Eps.

Fixpoint upto (n : nat) (r : regex) : regex :=
  match n with
  | O => Eps
  | S n' => opt (Seq r (upto n' r))
  end.

Fixpoint nullable (r : regex) : bool :=
  match r with
  | Empty => false
  | Eps => true
  | Class _ => false
  | Seq r1 r2 => nullable r1 && nullable r2
  | Alt r1 r2 => nullable r1 || nullable r2
  | Star _ => true
  end.

(** What is left of [r] once the character [a] has been read. *)
Fixpoint deriv (a : ascii) (r : regex) : regex :=
  match r with
  | Empty => Empty
  | Eps => Empty
  | Class p => if p a then Eps else Empty
  | Seq r1 r2 =>
      if nullable r1
      then Alt (Seq (deriv a r1) r2) (deriv a r2)
      else Seq (deriv a r1) r2
  | Alt r1 r2 => Alt (deriv a r1) (deriv a r2)
  | Star r1 => Seq (deriv a r1) (Star r1)
  end.

(** [/^r$/.test(s)]. *)
Fixpoint test (r : regex) (s : string) : bool :=
  match s with
  | EmptyString => nullable r
  | String a s' => test (deriv a r) s'
  end.

(** The strings of a pattern. *)
Inductive matches : regex -> string -> Prop :=
| m_eps : matches Eps EmptyString
| m_class (p : ascii -> bool) (a : ascii) :
    p a = true -> matches (Class p) (String a EmptyString)
| m_seq (r1 r2 : regex) (s1 s2 : string) :
    matches r1 s1 -> matches r2 s2 -> matches (Seq r1 r2) (s1 ++ s2)
| m_alt_l (r1 r2 : regex) (s : string) : matches r1 s -> matches (Alt r1 r2) s
| m_alt_r (r1 r2 : regex) (s : string) : matches r2 s -> matches (Alt r1 r2) s
| m_star_nil (r : regex) : matches (Star r) EmptyString
| m_star_app (r : regex) (s1 s2 : string) :
    matches r s1 -> matches (Star r) s2 -> matches (Star r) (s1 ++ s2).

(** The class \s on code units below 256: tab, line feed, vertical tab, form
    feed, carriage return, space, no-break space. *)
Definition whitespace (a : ascii) : bool :=
  let n := N_of_ascii a in
  (((9 <=? n) && (n <=? 13)) || (n =? 32) || (n =? 160))%N.

(** The class \d. *)
Definition digit (a : ascii) : bool :=
  let n := N_of_ascii a in ((48 <=? n) && (n <=? 57))%N.

Definition is_char (c a : ascii) : bool := Ascii.eqb a c.

Fixpoint all_chars (p : ascii -> bool) (s : string) : bool :=
  match s with
  | EmptyString => true
  | String a r => p a && all_chars p r
  end.

End Regex.

(** ** utils/validators.ts, the other validators *)

Module Validators.

(** The class [^\s@]. *)
Definition email_char (a : ascii) : bool :=
  negb (Regex.whitespace a) && negb (Regex.is_char "@" a).

(** The class [1-9]. *)
Definition nonzero_digit (a : ascii) : bool :=
  let n := N_of_ascii a in ((49 <=? n) && (n <=? 57))%N.

(** /^[^\s@]+@[^\s@]+\.[^\s@]+$/ *)
Definition emailRegex : Regex.regex :=
  Regex.Seq (Regex.plus (Regex.Class email_char))
    (Regex.Seq (Regex.Class (Regex.is_char "@"))
       (Regex.Seq (Regex.plus (Regex.Class email_char))
          (Regex.Seq (Regex.Class (Regex.is_char "."))
             (Regex.plus (Regex.Class email_char))))).

Definition isValidEmail (email : string) : bool := Regex.test emailRegex email.

Definition isValidPassword (password : string) : bool :=
  (8 <=? String.length password)%nat.

(** /^\+?[1-9]\d{1,14}$/ *)
Definition phoneRegex : Regex.regex :=
  Regex.Seq (Regex.opt (Regex.Class (Regex.is_char "+")))
    (Regex.Seq (Regex.Class nonzero_digit)
       (Regex.Seq (Regex.Class Regex.digit)
          (Regex.upto 13 (Regex.Class Regex.digit)))).

Definition isValidPhoneNumber (phone : string) : bool := Regex.test phoneRegex phone.

Definition isValidCurrency (currency : string) : bool :=
  existsb (String.eqb currency) ["NGN"; "USD"; "EUR"; "GBP"].

End Validators.

(** ** services/authService.ts, the checks that come before the store *)

Module AuthService.

(** types/index.ts, [RegisterRequest]; [full_name] may be missing at run
    time, which the code checks. *)
Record RegisterRequest : Type := mkRegisterRequest {
  r_email : string;
  r_password : string;
  r_full_name : option string;
  r_phone_number : option string
}.

Fixpoint trimStart (s : string) : string :=
  match s with
  | EmptyString => EmptyString
  | String a r => if Regex.whitespace a then trimStart r else s
  end.

(** Whether [s.trim()] is the empty string: nothing but white space. *)
Definition blank (s : string) : bool :=
  match trimStart s with
  | EmptyString => true
  | String _ _ => false
  end.

(** The validation block of [register]: the four checks in order, the
    messages of the failed ones joined by a comma, thrown as one 400 before
    any query; [None] when nothing is thrown. *)
Definition registerValidation (data : RegisterRequest) : option Thrown :=
  let isError := false in
  let message := EmptyString in
  let '(isError, message) :=
    if negb (truthy (r_full_name data))
       || blank (or_else (r_full_name data) EmptyString)
    then (true, "Full name is required")
    else (isError, message) in
  let '(isError, message) :=
    if negb (Validators.isValidEmail (r_email data))
    then (true,
          if isError then (message ++ ", Invalid email format")%string
          else "Invalid email format")
    else (isError, message) in
  let '(isError, message) :=
    if negb (Validators.isValidPassword (r_password data))
    then (true,
          if isError
          then (message ++ ", Password must be at least 8 characters long")%string
          else "Password must be at least 8 characters long")
    else (isError, message) in
  let '(isError, message) :=
    if negb (Validators.isValidPhoneNumber
               (or_else (r_phone_number data) EmptyString))
    then (true,
          if isError then (message ++ ", Invalid phone number format")%string
          else "Invalid phone number format")
    else (isError, message) in
  if isError then Some (AppError 400 message) else None.

(** The first check of [login]. *)
Definition loginValidation (email : string) : option Thrown :=
  if negb (Validators.isValidEmail email)
  then Some (AppError 400 "Invalid email format")
  else None.

End AuthService.

(** ** Ledger sums *)

Definition sum_Z (l : list Z) : Z := fold_right Z.add 0 l.

(** The money held under a wallet identifier: the balance of the wallet row
    with that identifier (of all such rows, were the key missing). *)
Definition funds (d : Database) (wid : string) : Z :=
  sum_Z (map w_balance (filter (fun w => (w_id w =? wid)%string) (wallets d))).

(** What the records of a wallet add up to, each with its sign. *)
Definition posted (ts : list Transaction) (wid : string) : Z :=
  sum_Z (map signed_amount (filter (fun t => (wallet_id t =? wid)%string) ts)).

(** The same users and the same wallet rows, balances apart. *)
Definition same_accounts (d d' : Database) : Prop :=
  users d' = users d
  /\ map w_id (wallets d') = map w_id (wallets d)
  /\ map w_user_id (wallets d') = map w_user_id (wallets d)
  /\ map w_currency (wallets d') = map w_currency (wallets d).

(** * Properties *)

(** ** Lists and keys *)

(** * Properties *)

(** ** Lists and keys *)

Section ListFacts.

Context {A : Type}.

Lemma filter_nil_existsb (p : A -> bool) (l : list A) :
  filter p l = [] <-> existsb p l = false.
Proof.
  induction l as [| x l IH]; simpl; [tauto |].
  destruct (p x); simpl; [split; discriminate | exact IH].
Qed.

Lemma filter_cons_existsb (p : A -> bool) (l : list A) (x : A) (r : list A) :
  filter p l = x :: r -> existsb p l = true.
Proof.
  intros H. destruct (existsb p l) eqn:E; [reflexivity |].
  apply filter_nil_existsb in E. congruence.
Qed.

Lemma filter_head_In (p : A -> bool) (l : list A) (x : A) (r : list A) :
  filter p l = x :: r -> In x l /\ p x = true.
Proof.
  intros H. apply filter_In. rewrite H. left. reflexivity.
Qed.

Lemma existsb_eqb_In (k : string) (l : list string) :
  existsb (String.eqb k) l = true <-> In k l.
Proof.
  rewrite existsb_exists. split.
  - intros [y [Hy E]]. apply String.eqb_eq in E. subst. exact Hy.
  - intros H. exists k. split; [exact H | apply String.eqb_refl].
Qed.

(** With a distinct key, at most one row answers a lookup by that key. *)
Lemma filter_distinct_key (key : A -> string) (k : string) (l : list A)
    (x : A) (r : list A) :
  distinct (map key l) = true ->
  filter (fun y => (key y =? k)%string) l = x :: r -> r = [].
Proof.
  induction l as [| y l IH]; simpl; [discriminate |].
  intros D. apply andb_true_iff in D. destruct D as [Hy D].
  destruct (String.eqb_spec (key y) k) as [E | E].
  - intros H. injection H as _ H.
    destruct r as [| z r]; [reflexivity | exfalso].
    apply filter_head_In in H. destruct H as [Hz Ez].
    apply String.eqb_eq in Ez.
    apply negb_true_iff in Hy.
    assert (In (key y) (map key l)) as Hin
      by (rewrite E, <- Ez; apply in_map; exact Hz).
    apply existsb_eqb_In in Hin. congruence.
  - intros H. apply IH; assumption.
Qed.

(** Two rows of a table with a distinct key that carry the same key are the
    same row. *)
Lemma distinct_key_inj (key : A -> string) (l : list A) (x y : A) :
  distinct (map key l) = true ->
  In x l -> In y l -> key x = key y -> x = y.
Proof.
  induction l as [| z l IH]; simpl; [tauto |].
  intros D. apply andb_true_iff in D. destruct D as [Hz D].
  apply negb_true_iff in Hz.
  intros [Hx | Hx] [Hy | Hy] E; subst.
  - reflexivity.
  - exfalso. assert (In (key x) (map key l)) as Hin
      by (rewrite E; apply in_map; exact Hy).
    apply existsb_eqb_In in Hin. congruence.
  - exfalso. assert (In (key y) (map key l)) as Hin
      by (rewrite <- E; apply in_map; exact Hx).
    apply existsb_eqb_In in Hin. congruence.
  - apply IH; assumption.
Qed.

End ListFacts.

(** ** The connection monad *)

Lemma bind_Ok {A B : Type} (m : M A) (k : A -> M B) (c c' : Client) (b : B) :
  bind m k c = (Ok b, c') ->
  exists a c1, m c = (Ok a, c1) /\ k a c1 = (Ok b, c').
Proof.
  unfold bind. destruct (m c) as [[a | e] c1]; intros H.
  - exists a, c1. split; [reflexivity | exact H].
  - discriminate.
Qed.

Lemma bind_Err {A B : Type} (m : M A) (k : A -> M B) (c c' : Client) (e : Thrown) :
  bind m k c = (Err e, c') ->
  m c = (Err e, c') \/ exists a c1, m c = (Ok a, c1) /\ k a c1 = (Err e, c').
Proof.
  unfold bind. destruct (m c) as [[a | e1] c1]; intros H.
  - right. exists a, c1. split; [reflexivity | exact H].
  - left. injection H as -> ->. reflexivity.
Qed.

Lemma db_transaction_Ok {A : Type} (callback : M A) (c c' : Client) (a : A) :
  db_transaction callback c = (Ok a, c') -> callback c = (Ok a, c').
Proof.
  unfold db_transaction. destruct (callback c) as [[x | e] c1]; intros H;
    [exact H | discriminate].
Qed.

(** A transaction that throws leaves the database as it found it. *)
Lemma db_transaction_Err {A : Type} (callback : M A) (c c' : Client) (e : Thrown) :
  db_transaction callback c = (Err e, c') -> db c' = db c.
Proof.
  unfold db_transaction. destruct (callback c) as [[x | e1] c1]; intros H;
    [discriminate |].
  injection H as _ H. subst c'. reflexivity.
Qed.

(** ** Statements *)
(** ** Statements *)

Lemma with_uuid_Ok {A : Type} (uid : string) (statement : string -> M A)
    (c c' : Client) (a : A) :
  Pg.with_uuid uid statement c = (Ok a, c') ->
  exists u, Uuid.uuid_in uid = Some u /\ statement u c = (Ok a, c').
Proof.
  unfold Pg.with_uuid. destruct (Uuid.uuid_in uid) as [u |]; intros H.
  - exists u. auto.
  - discriminate.
Qed.

Lemma with_uuid_Err {A : Type} (uid : string) (statement : string -> M A)
    (c c' : Client) (e : Thrown) :
  Pg.with_uuid uid statement c = (Err e, c') ->
  (Uuid.uuid_in uid = None
   /\ e = DatabaseError invalid_text_representation /\ c' = c)
  \/ exists u, Uuid.uuid_in uid = Some u /\ statement u c = (Err e, c').
Proof.
  unfold Pg.with_uuid, throw. destruct (Uuid.uuid_in uid) as [u |]; intros H.
  - right. exists u. auto.
  - left. injection H as <- <-. auto.
Qed.

Lemma with_uuid_run {A : Type} (uid u : string) (statement : string -> M A) :
  Uuid.uuid_in uid = Some u -> Pg.with_uuid uid statement = statement u.
Proof. unfold Pg.with_uuid. intros ->. reflexivity. Qed.

Lemma select_for_update_Ok (uid : string) (c c' : Client) (rows : list Wallet) :
  Pg.select_wallets_for_update uid c = (Ok rows, c') ->
  exists u,
    Uuid.uuid_in uid = Some u
    /\ rows = filter (fun w => (w_user_id w =? u)%string) (wallets (db c))
    /\ c' = mkClient (db c) (locked c ++ map w_id rows).
Proof.
  unfold Pg.select_wallets_for_update. intros H.
  apply with_uuid_Ok in H. destruct H as [u [U H]].
  injection H as <- <-. exists u. auto.
Qed.

Lemma select_for_update_Err (uid : string) (c c' : Client) (e : Thrown) :
  Pg.select_wallets_for_update uid c = (Err e, c') ->
  e = DatabaseError invalid_text_representation /\ c' = c.
Proof.
  unfold Pg.select_wallets_for_update. intros H.
  apply with_uuid_Err in H. destruct H as [[_ [-> ->]] | [u [_ H]]];
    [auto | discriminate].
Qed.

Lemma update_wallet_balance_Ok (delta : numeric) (wid : string) (c c' : Client)
    (u : unit) :
  Pg.update_wallet_balance delta wid c = (Ok u, c') ->
  Pg.balance_violation wid (map (Pg.add_to_balance delta wid) (wallets (db c))) = None
  /\ c' = mkClient
            (Pg.set_wallets (db c) (map (Pg.add_to_balance delta wid) (wallets (db c))))
            (locked c).
Proof.
  unfold Pg.update_wallet_balance.
  destruct (Pg.balance_violation _ _); intros H; [discriminate |].
  injection H as H. auto.
Qed.

Lemma insert_transaction_Ok (wid uid : string) (ty : TransactionType)
    (amt : numeric) (ref : string) (descr : option string)
    (before after : option Z) (st : TransactionStatus) (c c' : Client)
    (row : Transaction) :
  Pg.insert_transaction wid uid ty amt ref descr before after st c = (Ok row, c') ->
  exists u balanceBefore balanceAfter,
    Uuid.uuid_in uid = Some u
    /\ before = Some balanceBefore
    /\ after = Some balanceAfter
    /\ row = mkTransaction (List.length (transactions (db c))) wid u ty
               (Pg.to_numeric_18_2 amt) ref descr balanceBefore balanceAfter st
    /\ Pg.transaction_violation (db c) row = None
    /\ c' = mkClient (Pg.set_transactions (db c) (transactions (db c) ++ [row]))
              (locked c).
Proof.
  unfold Pg.insert_transaction. intros H.
  apply with_uuid_Ok in H. destruct H as [u [U H]].
  destruct before as [b |]; [| discriminate].
  destruct after as [a |]; [| discriminate].
  destruct (Pg.transaction_violation _ _) eqn:V; [discriminate |].
  injection H as H1 H2. subst row.
  exists u, b, a. repeat split; auto.
Qed.

Lemma logTransaction_run (userId : string) (n : nat) (ty : TransactionType)
    (amt : Z) (ip : option string) (c : Client) :
  exists logs,
    AuditService.logTransaction userId n ty amt ip c =
    (Ok tt, mkClient (Pg.set_audit_logs (db c) logs) (locked c)).
Proof.
  unfold AuditService.logTransaction, AuditService.log.
  destruct (Uuid.uuid_in userId) as [actor |].
  - destruct (existsb _ _).
    + eexists. reflexivity.
    + exists (audit_logs (db c)). destruct c as [[us ws ts ls] lk]. reflexivity.
  - exists (audit_logs (db c)). destruct c as [[us ws ts ls] lk]. reflexivity.
Qed.

Lemma reference_used_filter (d : Database) (ref : string) :
  reference_used d ref = false <->
  filter (fun t => (reference t =? ref)%string) (transactions d) = [].
Proof. unfold reference_used. symmetry. apply filter_nil_existsb. Qed.

(** ** Committed operations *)

Tactic Notation "bind_ok" hyp(H) "as" ident(x) ident(c') ident(Hx) :=
  apply bind_Ok in H; destruct H as [x [c' [Hx H]]].

Ltac audit_ok H userId row ty ip c0 :=
  let logs := fresh "logs" in
  let L := fresh "L" in
  destruct (logTransaction_run userId (txn_id row) ty (amount_of row) ip c0)
    as [logs L];
  simpl in H, L; rewrite L in H; clear L.

(** What a committed credit did: the first wallet row of the owner was locked,
    the amount added to its balance, one record appended. *)
Lemma credit_committed (userId : string) (amount : number)
    (description reference ipAddress : option string) (generated : string)
    (d : Database) (t : Transaction) (c : Client) :
  run (WalletService.credit userId amount description reference ipAddress generated) d
  = (Ok t, c) ->
  exists u w rest before after,
    isValidAmount amount = true
    /\ reference_used d (or_else reference generated) = false
    /\ Uuid.uuid_in userId = Some u
    /\ filter (fun w => (w_user_id w =? u)%string) (wallets d) = w :: rest
    /\ toFixed_2 (parseFloat (w_balance w)) = Some before
    /\ toFixed_2 (JS.add (parseFloat (w_balance w)) amount) = Some after
    /\ t = mkTransaction (List.length (transactions d)) (w_id w) u credit_type
             (Pg.to_numeric_18_2 (toString amount))
             (or_else reference generated) (or_null description)
             before after success
    /\ Pg.transaction_violation
         (Pg.set_wallets d
            (map (Pg.add_to_balance (toString amount) (w_id w)) (wallets d))) t
       = None
    /\ users (db c) = users d
    /\ wallets (db c)
       = map (Pg.add_to_balance (toString amount) (w_id w)) (wallets d)
    /\ Pg.balance_violation (w_id w) (wallets (db c)) = None
    /\ transactions (db c) = (transactions d ++ [t])%list
    /\ locked c = map w_id (w :: rest).
Proof.
  unfold run, WalletService.credit.
  destruct (isValidAmount amount) eqn:V; simpl; [| discriminate].
  intros H. bind_ok H as ex c1 H1. injection H1 as <- <-.
  destruct (filter _ (transactions d)) eqn:R; [| discriminate].
  apply reference_used_filter in R.
  bind_ok H as t1 c2 H2. apply db_transaction_Ok in H2.
  bind_ok H2 as rows c3 H3.
  apply select_for_update_Ok in H3. destruct H3 as [u [U [-> ->]]]. simpl in H2.
  destruct (filter _ (wallets d)) as [| w rest] eqn:W; [discriminate |].
  bind_ok H2 as u1 c4 H4.
  apply update_wallet_balance_Ok in H4. destruct H4 as [V4 ->].
  apply insert_transaction_Ok in H2.
  destruct H2 as [u' [before [after [U' [B [A [Et [TV ->]]]]]]]].
  rewrite U in U'. injection U' as <-.
  bind_ok H as u2 c5 H5.
  audit_ok H5 userId t1 credit_type ipAddress
    (mkClient
       (Pg.set_transactions
          (Pg.set_wallets d
             (map (Pg.add_to_balance (toString amount) (w_id w)) (wallets d)))
          (transactions d ++ [t1]))
       (map w_id (w :: rest))).
  injection H5 as _ <-. injection H as <- <-. simpl in *.
  exists u, w, rest, before, after. repeat split; auto.
Qed.

(** What a committed debit did: the guard passed on the balance read under
    the lock, the amount was taken from the balance, one record appended. *)
Lemma debit_committed (userId : string) (amount : number)
    (description reference ipAddress : option string) (generated : string)
    (d : Database) (t : Transaction) (c : Client) :
  run (WalletService.debit userId amount description reference ipAddress generated) d
  = (Ok t, c) ->
  exists u w rest before after,
    isValidAmount amount = true
    /\ reference_used d (or_else reference generated) = false
    /\ Uuid.uuid_in userId = Some u
    /\ filter (fun w => (w_user_id w =? u)%string) (wallets d) = w :: rest
    /\ JS.lt (parseFloat (w_balance w)) amount = false
    /\ toFixed_2 (parseFloat (w_balance w)) = Some before
    /\ toFixed_2 (JS.sub (parseFloat (w_balance w)) amount) = Some after
    /\ t = mkTransaction (List.length (transactions d)) (w_id w) u debit_type
             (Pg.to_numeric_18_2 (toString amount))
             (or_else reference generated) (or_null description)
             before after success
    /\ Pg.transaction_violation
         (Pg.set_wallets d
            (map (Pg.add_to_balance (Pg.opp (toString amount)) (w_id w))
               (wallets d))) t
       = None
    /\ users (db c) = users d
    /\ wallets (db c)
       = map (Pg.add_to_balance (Pg.opp (toString amount)) (w_id w)) (wallets d)
    /\ Pg.balance_violation (w_id w) (wallets (db c)) = None
    /\ transactions (db c) = (transactions d ++ [t])%list
    /\ locked c = map w_id (w :: rest).
Proof.
  unfold run, WalletService.debit.
  destruct (isValidAmount amount) eqn:V; simpl; [| discriminate].
  intros H. bind_ok H as ex c1 H1. injection H1 as <- <-.
  destruct (filter _ (transactions d)) eqn:R; [| discriminate].
  apply reference_used_filter in R.
  bind_ok H as t1 c2 H2. apply db_transaction_Ok in H2.
  bind_ok H2 as rows c3 H3.
  apply select_for_update_Ok in H3. destruct H3 as [u [U [-> ->]]]. simpl in H2.
  destruct (filter _ (wallets d)) as [| w rest] eqn:W; [discriminate |].
  destruct (JS.lt (parseFloat (w_balance w)) amount) eqn:G; [discriminate |].
  bind_ok H2 as u1 c4 H4.
  apply update_wallet_balance_Ok in H4. destruct H4 as [V4 ->].
  apply insert_transaction_Ok in H2.
  destruct H2 as [u' [before [after [U' [B [A [Et [TV ->]]]]]]]].
  rewrite U in U'. injection U' as <-.
  bind_ok H as u2 c5 H5.
  audit_ok H5 userId t1 debit_type ipAddress
    (mkClient
       (Pg.set_transactions
          (Pg.set_wallets d
             (map (Pg.add_to_balance (Pg.opp (toString amount)) (w_id w))
                (wallets d)))
          (transactions d ++ [t1]))
       (map w_id (w :: rest))).
  injection H5 as _ <-. injection H as <- <-. simpl in *.
  exists u, w, rest, before, after. repeat split; auto.
Qed.

(** Recipient resolution only reads. *)
Lemma resolveRecipient_reads (recipientEmail recipientUserId : option string)
    (c c' : Client) (r : Result string) :
  WalletService.resolveRecipient recipientEmail recipientUserId c = (r, c') ->
  c' = c.
Proof.
  unfold WalletService.resolveRecipient, bind, Pg.select_users_by_email,
    Pg.select_users_by_id, Pg.with_uuid, ret, throw.
  destruct (truthy recipientEmail).
  - destruct (filter _ _); intros H; injection H as _ <-; reflexivity.
  - destruct (truthy recipientUserId).
    + destruct (Uuid.uuid_in _).
      * destruct (filter _ _); intros H; injection H as _ <-; reflexivity.
      * intros H; injection H as _ <-; reflexivity.
    + intros H; injection H as _ <-; reflexivity.
Qed.

(** What a committed transfer did. *)
Lemma transfer_committed (senderUserId : string)
    (recipientEmail recipientUserId : option string) (amount : number)
    (description reference ipAddress : option string) (generated : string)
    (d : Database) (r : TransferResponse) (c : Client) :
  run (WalletService.transfer senderUserId recipientEmail recipientUserId amount
         description reference ipAddress generated) d = (Ok r, c) ->
  exists recipientId su ru sw srest rw rrest sb sa rb ra,
    isValidAmount amount = true
    /\ reference_used d (or_else reference generated) = false
    /\ run (WalletService.resolveRecipient recipientEmail recipientUserId) d
       = (Ok recipientId, mkClient d [])
    /\ senderUserId <> recipientId
    /\ Uuid.uuid_in senderUserId = Some su
    /\ Uuid.uuid_in recipientId = Some ru
    /\ filter (fun w => (w_user_id w =? su)%string) (wallets d) = sw :: srest
    /\ filter (fun w => (w_user_id w =? ru)%string) (wallets d) = rw :: rrest
    /\ JS.lt (parseFloat (w_balance sw)) amount = false
    /\ toFixed_2 (parseFloat (w_balance sw)) = Some sb
    /\ toFixed_2 (JS.sub (parseFloat (w_balance sw)) amount) = Some sa
    /\ toFixed_2 (parseFloat (w_balance rw)) = Some rb
    /\ toFixed_2 (JS.add (parseFloat (w_balance rw)) amount) = Some ra
    /\ sender_transaction r =
         mkTransaction (List.length (transactions d)) (w_id sw) su
           transfer_out (Pg.to_numeric_18_2 (toString amount))
           (or_else reference generated ++ "-OUT")
           (Some (or_else description "Transfer" ++ " to user " ++ recipientId))
           sb sa success
    /\ recipient_transaction r =
         mkTransaction (S (List.length (transactions d))) (w_id rw) ru
           transfer_in (Pg.to_numeric_18_2 (toString amount))
           (or_else reference generated ++ "-IN")
           (Some (or_else description "Transfer" ++ " from user " ++ senderUserId))
           rb ra success
    /\ sender_new_balance r = Some sa
    /\ recipient_new_balance r = Some ra
    /\ users (db c) = users d
    /\ wallets (db c) =
         map (Pg.add_to_balance (toString amount) (w_id rw))
           (map (Pg.add_to_balance (Pg.opp (toString amount)) (w_id sw))
              (wallets d))
    /\ Pg.balance_violation (w_id sw)
         (map (Pg.add_to_balance (Pg.opp (toString amount)) (w_id sw))
            (wallets d)) = None
    /\ Pg.balance_violation (w_id rw) (wallets (db c)) = None
    /\ transactions (db c) =
         (transactions d ++ [sender_transaction r; recipient_transaction r])%list
    /\ locked c = (map w_id (sw :: srest) ++ map w_id (rw :: rrest))%list.
Proof.
  unfold run, WalletService.transfer.
  destruct (isValidAmount amount) eqn:V; simpl; [| discriminate].
  destruct (negb (truthy recipientEmail) && negb (truthy recipientUserId));
    [discriminate |].
  intros H. bind_ok H as ex c1 H1. injection H1 as <- <-.
  destruct (filter _ (transactions d)) eqn:R; [| discriminate].
  apply reference_used_filter in R.
  bind_ok H as recipientId c2 H2.
  pose proof (resolveRecipient_reads _ _ _ _ _ H2) as ->.
  destruct (String.eqb_spec senderUserId recipientId) as [E | E]; [discriminate |].
  bind_ok H as res c3 H3. apply db_transaction_Ok in H3.
  bind_ok H3 as srows c4 H4.
  apply select_for_update_Ok in H4. destruct H4 as [su [SU [-> ->]]].
  simpl in H3.
  destruct (filter _ (wallets d)) as [| sw srest] eqn:SW; [discriminate |].
  destruct (JS.lt (parseFloat (w_balance sw)) amount) eqn:G; [discriminate |].
  bind_ok H3 as rrows c5 H5.
  apply select_for_update_Ok in H5. destruct H5 as [ru [RU [-> ->]]].
  simpl in H3.
  destruct (filter (fun w => (w_user_id w =? ru)%string) (wallets d))
    as [| rw rrest] eqn:RW; [discriminate |].
  bind_ok H3 as u1 c6 H6.
  apply update_wallet_balance_Ok in H6. destruct H6 as [V6 ->].
  bind_ok H3 as u2 c7 H7.
  apply update_wallet_balance_Ok in H7. destruct H7 as [V7 ->].
  bind_ok H3 as st c8 H8.
  apply insert_transaction_Ok in H8.
  destruct H8 as [su' [sb [sa [SU' [SB [SA [Est [_ ->]]]]]]]].
  rewrite SU in SU'. injection SU' as <-.
  bind_ok H3 as rt c9 H9.
  apply insert_transaction_Ok in H9.
  destruct H9 as [ru' [rb [ra [RU' [RB [RA [Ert [_ ->]]]]]]]].
  rewrite RU in RU'. injection RU' as <-.
  injection H3 as <- <-. simpl in *.
  bind_ok H as u3 c10 H10.
  match type of H10 with
  | AuditService.logTransaction _ _ _ _ _ ?c0 = _ =>
      audit_ok H10 senderUserId st transfer_out ipAddress c0
  end.
  injection H10 as _ <-.
  bind_ok H as u4 c11 H11.
  match type of H11 with
  | AuditService.logTransaction _ _ _ _ _ ?c0 = _ =>
      audit_ok H11 recipientId rt transfer_in ipAddress c0
  end.
  injection H11 as _ <-. injection H as <- <-. simpl in *.
  exists recipientId, su, ru, sw, srest, rw, rrest, sb, sa, rb, ra.
  rewrite length_app in Ert. simpl in Ert. rewrite Nat.add_1_r in Ert.
  rewrite <- app_assoc. simpl.
  repeat split; auto.
Qed.

(** ** Operations that throw *)

Lemma throw_run {A : Type} (e e' : Thrown) (c c' : Client) :
  @throw A e c = (Err e', c') -> e' = e /\ c' = c.
Proof. unfold throw. intros H. injection H as <- <-. auto. Qed.

Lemma logTransaction_then_Err {A : Type} (userId : string) (n : nat)
    (ty : TransactionType) (amt : Z) (ip : option string) (k : M A)
    (c c' : Client) (e : Thrown) :
  bind (AuditService.logTransaction userId n ty amt ip) (fun _ => k) c = (Err e, c') ->
  exists c1, k c1 = (Err e, c').
Proof.
  intros H. apply bind_Err in H. destruct H as [H | [u [c1 [_ H]]]].
  - destruct (logTransaction_run userId n ty amt ip c) as [logs L].
    rewrite L in H. discriminate.
  - exists c1. exact H.
Qed.

Lemma ret_not_Err {A : Type} (a : A) (c c' : Client) (e : Thrown) :
  ret a c = (Err e, c') -> False.
Proof. unfold ret. discriminate. Qed.

(** A credit that throws changes nothing in the database. *)
Lemma credit_thrown (userId : string) (amount : number)
    (description reference ipAddress : option string) (generated : string)
    (d : Database) (e : Thrown) (c : Client) :
  run (WalletService.credit userId amount description reference ipAddress generated) d
  = (Err e, c) ->
  db c = d.
Proof.
  unfold run, WalletService.credit.
  destruct (isValidAmount amount); simpl.
  - intros H. apply bind_Err in H. destruct H as [H | [ex [c1 [H1 H]]]];
      [discriminate |].
    injection H1 as <- <-.
    destruct (filter _ (transactions d)).
    + apply bind_Err in H. destruct H as [H | [t [c2 [_ H]]]].
      * apply db_transaction_Err in H. exact H.
      * apply logTransaction_then_Err in H. destruct H as [c3 H].
        destruct (ret_not_Err _ _ _ _ H).
    + apply throw_run in H. destruct H as [_ ->]. reflexivity.
  - intros H. apply throw_run in H. destruct H as [_ ->]. reflexivity.
Qed.

(** A debit that throws changes nothing in the database. *)
Lemma debit_thrown (userId : string) (amount : number)
    (description reference ipAddress : option string) (generated : string)
    (d : Database) (e : Thrown) (c : Client) :
  run (WalletService.debit userId amount description reference ipAddress generated) d
  = (Err e, c) ->
  db c = d.
Proof.
  unfold run, WalletService.debit.
  destruct (isValidAmount amount); simpl.
  - intros H. apply bind_Err in H. destruct H as [H | [ex [c1 [H1 H]]]];
      [discriminate |].
    injection H1 as <- <-.
    destruct (filter _ (transactions d)).
    + apply bind_Err in H. destruct H as [H | [t [c2 [_ H]]]].
      * apply db_transaction_Err in H. exact H.
      * apply logTransaction_then_Err in H. destruct H as [c3 H].
        destruct (ret_not_Err _ _ _ _ H).
    + apply throw_run in H. destruct H as [_ ->]. reflexivity.
  - intros H. apply throw_run in H. destruct H as [_ ->]. reflexivity.
Qed.

(** A transfer that throws changes nothing in the database. *)
Lemma transfer_thrown (senderUserId : string)
    (recipientEmail recipientUserId : option string) (amount : number)
    (description reference ipAddress : option string) (generated : string)
    (d : Database) (e : Thrown) (c : Client) :
  run (WalletService.transfer senderUserId recipientEmail recipientUserId amount
         description reference ipAddress generated) d = (Err e, c) ->
  db c = d.
Proof.
  unfold run, WalletService.transfer.
  destruct (isValidAmount amount); simpl;
    [| intros H; apply throw_run in H; destruct H as [_ ->]; reflexivity].
  destruct (negb (truthy recipientEmail) && negb (truthy recipientUserId));
    [intros H; apply throw_run in H; destruct H as [_ ->]; reflexivity |].
  intros H. apply bind_Err in H. destruct H as [H | [ex [c1 [H1 H]]]];
    [discriminate |].
  injection H1 as <- <-.
  destruct (filter _ (transactions d));
    [| apply throw_run in H; destruct H as [_ ->]; reflexivity].
  apply bind_Err in H. destruct H as [H | [recipientId [c2 [H2 H]]]].
  - apply resolveRecipient_reads in H. subst c. reflexivity.
  - apply resolveRecipient_reads in H2. subst c2.
    destruct (senderUserId =? recipientId)%string;
      [apply throw_run in H; destruct H as [_ ->]; reflexivity |].
    apply bind_Err in H. destruct H as [H | [res [c3 [_ H]]]].
    + apply db_transaction_Err in H. exact H.
    + apply logTransaction_then_Err in H. destruct H as [c4 H].
      apply logTransaction_then_Err in H. destruct H as [c5 H].
      destruct (ret_not_Err _ _ _ _ H).
Qed.

(** ** Balances under UPDATE *)

Lemma balance_of_first (d : Database) (userId : string) :
  balance_of d userId =
  match Uuid.uuid_in userId with
  | Some u =>
      option_map w_balance
        (hd_error (filter (fun w => (w_user_id w =? u)%string) (wallets d)))
  | None => None
  end.
Proof.
  unfold balance_of, outcome, run, WalletService.getBalance,
    WalletService.getWalletByUserId, Pg.select_wallets_by_user, Pg.with_uuid,
    bind, ret, throw.
  destruct (Uuid.uuid_in userId) as [u |]; [| reflexivity].
  simpl. destruct (filter _ (wallets d)); reflexivity.
Qed.

Lemma add_to_balance_user (delta : numeric) (wid : string) (w : Wallet) :
  w_user_id (Pg.add_to_balance delta wid w) = w_user_id w.
Proof. unfold Pg.add_to_balance. destruct (w_id w =? wid)%string; reflexivity. Qed.

Lemma add_to_balance_id (delta : numeric) (wid : string) (w : Wallet) :
  w_id (Pg.add_to_balance delta wid w) = w_id w.
Proof. unfold Pg.add_to_balance. destruct (w_id w =? wid)%string; reflexivity. Qed.

Lemma add_to_balance_balance (delta : numeric) (wid : string) (w : Wallet) :
  w_balance (Pg.add_to_balance delta wid w) =
  if (w_id w =? wid)%string then Pg.plus (w_balance w) delta else w_balance w.
Proof.
  unfold Pg.add_to_balance. destruct (w_id w =? wid)%string; reflexivity.
Qed.

(** An UPDATE of balances moves no row and changes no owner, so a lookup by
    owner finds the same rows, updated. *)
Lemma filter_user_update (delta : numeric) (wid userId : string) (ws : list Wallet) :
  filter (fun w => (w_user_id w =? userId)%string) (map (Pg.add_to_balance delta wid) ws)
  = map (Pg.add_to_balance delta wid)
      (filter (fun w => (w_user_id w =? userId)%string) ws).
Proof.
  induction ws as [| w ws IH]; simpl; [reflexivity |].
  rewrite add_to_balance_user.
  destruct (w_user_id w =? userId)%string; simpl; rewrite IH; reflexivity.
Qed.

(** Rows the UPDATE wrote satisfy CHECK (balance >= 0); the others are as
    they were. *)
Lemma update_keeps_nonneg (delta : numeric) (wid : string) (ws : list Wallet) :
  forallb (fun w => 0 <=? w_balance w) ws = true ->
  Pg.balance_violation wid (map (Pg.add_to_balance delta wid) ws) = None ->
  forallb (fun w => 0 <=? w_balance w) (map (Pg.add_to_balance delta wid) ws) = true.
Proof.
  unfold Pg.balance_violation. intros N V.
  destruct (forallb (fun w => Pg.numeric_18_2 (w_balance w)) _); simpl in V;
    [| discriminate].
  destruct (forallb (fun w => 0 <=? w_balance w)
              (filter (fun w => (w_id w =? wid)%string)
                 (map (Pg.add_to_balance delta wid) ws))) eqn:C; simpl in V;
    [clear V | discriminate].
  rewrite forallb_forall in *. intros w' Hin.
  destruct (w_id w' =? wid)%string eqn:E.
  - apply C. apply filter_In. auto.
  - apply in_map_iff in Hin. destruct Hin as [w [<- Hw]].
    rewrite add_to_balance_id in E. unfold Pg.add_to_balance. rewrite E.
    apply N. exact Hw.
Qed.

(** Under the keys of [wallets], the rows of two different owners have
    different identifiers. *)
Lemma keyed_wallets_differ (d : Database) (u1 u2 : string) (w1 w2 : Wallet)
    (r1 r2 : list Wallet) :
  wallets_keyed d = true ->
  filter (fun w => (w_user_id w =? u1)%string) (wallets d) = w1 :: r1 ->
  filter (fun w => (w_user_id w =? u2)%string) (wallets d) = w2 :: r2 ->
  u1 <> u2 ->
  (w_id w1 =? w_id w2)%string = false.
Proof.
  unfold wallets_keyed. intros K F1 F2 N.
  apply andb_true_iff in K. destruct K as [K _].
  apply filter_head_In in F1. destruct F1 as [I1 E1].
  apply filter_head_In in F2. destruct F2 as [I2 E2].
  apply String.eqb_eq in E1, E2.
  apply String.eqb_neq. intros E.
  apply (distinct_key_inj w_id _ _ _ K I1 I2) in E. subst w2. congruence.
Qed.

(** ** Amounts of whole hundredths *)

Lemma round_half_away_exact (n unit : Z) :
  0 < unit -> Pg.round_half_away (n * unit) unit = n.
Proof.
  intros U. unfold Pg.round_half_away.
  rewrite Z.sgn_mul, Z.abs_mul, (Z.sgn_pos unit U), (Z.abs_eq unit) by lia.
  replace (2 * (Z.abs n * unit) + unit) with ((2 * Z.abs n + 1) * unit) by ring.
  rewrite Z.div_mul_cancel_r by lia.
  replace ((2 * Z.abs n + 1) / 2) with (Z.abs n)
    by (apply Z.div_unique with (r := 1); lia).
  destruct n; simpl; lia.
Qed.

(** An amount of whole hundredths is added, subtracted and stored as it
    is: nothing is rounded. *)
Lemma cents_exact (amount : number) (k : Z) :
  cents amount = Some k ->
  (forall balance, Pg.plus balance (toString amount) = balance + k)
  /\ (forall balance, Pg.plus balance (Pg.opp (toString amount)) = balance - k)
  /\ Pg.to_numeric_18_2 (toString amount) = k.
Proof.
  unfold cents, toString, Pg.to_numeric_18_2.
  destruct (shortest amount) as [[s p] |]; [| discriminate]. simpl.
  assert (forall balance sign,
             ((0 <=? p + 2) = true -> s * 10 ^ (p + 2) = k) ->
             ((0 <=? p + 2) = false ->
              s mod 10 ^ (- (p + 2)) = 0 /\ s / 10 ^ (- (p + 2)) = k) ->
             sign = 1 \/ sign = -1 ->
             Pg.plus balance (mkNumeric (sign * s) p) = balance + sign * k) as P.
  { intros balance sign Hpos Hneg Hsign. unfold Pg.plus. simpl.
    destruct (Z.leb_spec 0 (p + 2)) as [L | L].
    - rewrite (Z.max_l 0 (- (p + 2))), (Z.max_r 0 (p + 2)) by lia.
      change (10 ^ 0) with 1. rewrite <- (Hpos eq_refl).
      replace (balance * 1 + sign * s * 10 ^ (p + 2))
        with ((balance + sign * (s * 10 ^ (p + 2))) * 1) by ring.
      apply round_half_away_exact. lia.
    - rewrite (Z.max_r 0 (- (p + 2))), (Z.max_l 0 (p + 2)) by lia.
      change (10 ^ 0) with 1.
      destruct (Hneg eq_refl) as [M D].
      assert (0 < 10 ^ (- (p + 2))) as T by (apply Z.pow_pos_nonneg; lia).
      pose proof (Z.div_mod s (10 ^ (- (p + 2))) ltac:(lia)) as E.
      rewrite M, D in E.
      replace (balance * 10 ^ (- (p + 2)) + sign * s * 1)
        with ((balance + sign * k) * 10 ^ (- (p + 2))) by (rewrite E; ring).
      apply round_half_away_exact. exact T. }
  intros C.
  assert ((0 <=? p + 2) = true -> s * 10 ^ (p + 2) = k) as Hpos.
  { intros L. rewrite L in C. congruence. }
  assert ((0 <=? p + 2) = false ->
          s mod 10 ^ (- (p + 2)) = 0 /\ s / 10 ^ (- (p + 2)) = k) as Hneg.
  { intros L. rewrite L in C.
    destruct (Z.eqb_spec (s mod 10 ^ (- (p + 2))) 0); [| discriminate].
    split; congruence. }
  repeat split.
  - intros balance.
    rewrite <- (Z.mul_1_l s). rewrite P by auto. lia.
  - intros balance. unfold Pg.opp. simpl.
    replace (- s) with (-1 * s) by lia. rewrite P by auto. lia.
  - rewrite <- (Z.mul_1_l s). rewrite P by auto. lia.
Qed.

(** ** Texts of a UUID *)

Module UuidFacts.

Import Uuid.

Lemma hex_value_bound (a : ascii) (x : N) : hex_value a = Some x -> (x < 16)%N.
Proof.
  unfold hex_value.
  destruct ((48 <=? N_of_ascii a) && (N_of_ascii a <=? 57))%N eqn:D.
  - apply andb_true_iff in D. destruct D as [D1 D2].
    apply N.leb_le in D1, D2. intros H. injection H as <-. lia.
  - destruct ((97 <=? N_of_ascii a) && (N_of_ascii a <=? 102))%N eqn:L.
    + apply andb_true_iff in L. destruct L as [L1 L2].
      apply N.leb_le in L1, L2. intros H. injection H as <-. lia.
    + destruct ((65 <=? N_of_ascii a) && (N_of_ascii a <=? 70))%N eqn:U;
        [| discriminate].
      apply andb_true_iff in U. destruct U as [U1 U2].
      apply N.leb_le in U1, U2. intros H. injection H as <-. lia.
Qed.

(** A printed digit reads back as its value and is no hyphen and no brace. *)
Lemma hex_char_reads_back (x : N) :
  (x < 16)%N ->
  hex_value (hex_char x) = Some x
  /\ hex_char x <> "-"%char /\ hex_char x <> "{"%char.
Proof.
  intros B.
  assert (In x (map N.of_nat (seq 0 16))) as I.
  { apply in_map_iff. exists (N.to_nat x). split; [lia |].
    apply in_seq. lia. }
  simpl in I.
  repeat (destruct I as [<- | I]; [repeat split; discriminate || reflexivity |]).
  destruct I.
Qed.

Lemma read_bytes_printed (count : nat) :
  forall (i : nat) (src printed tail rest : string),
    (i + count = 16)%nat ->
    read_bytes count i src = Some (printed, tail) ->
    read_bytes count i (printed ++ rest) = Some (printed, rest)
    /\ (count <> O -> exists v r, printed = String (hex_char v) r /\ (v < 16)%N).
Proof.
  induction count as [| count IH]; intros i src printed tail rest B R.
  - simpl in R. injection R as <- <-. simpl. split; [reflexivity | congruence].
  - simpl in R.
    destruct src as [| a [| b rest0]]; try discriminate.
    destruct (hex_value a) as [x |] eqn:X; [| discriminate].
    destruct (hex_value b) as [y |] eqn:Y; [| discriminate].
    destruct (read_bytes count (S i) _) as [[printed' tail'] |] eqn:R';
      [| discriminate].
    injection R as <- <-.
    apply hex_value_bound in X, Y.
    destruct (hex_char_reads_back x X) as [Vx _].
    destruct (hex_char_reads_back y Y) as [Vy _].
    destruct (IH (S i) _ _ _ rest ltac:(lia) R') as [IH1 IH2].
    split; [| intros _; exists x; eexists; split; [reflexivity | exact X]].
    cbn [read_bytes append]. rewrite Vx, Vy.
    destruct (hyphen_after i) eqn:Hy.
    + assert (Nat.odd i && (i <? 15)%nat = true) as ->.
      { destruct i as [| [| [| [| [| [| [| [| [| [| i]]]]]]]]]];
          try discriminate; reflexivity. }
      cbn [append]. rewrite IH1. reflexivity.
    + destruct count as [| count'].
      * assert (i = 15%nat) as -> by lia.
        simpl in R'. injection R' as <- <-. cbn [append].
        simpl in IH1. destruct rest as [| r0 rest1]; [reflexivity |].
        destruct r0 as [[] [] [] [] [] [] [] []]; reflexivity.
      * destruct (IH2 ltac:(discriminate)) as [v [r [-> V]]].
        destruct (hex_char_reads_back v V) as [_ [Nh _]].
        cbn [append] in *.
        destruct (hex_char v) as [[] [] [] [] [] [] [] []];
          try (rewrite IH1; reflexivity).
        congruence.
Qed.

(** The text the conversion returns is a text of the same UUID: converted
    again it comes back as it is. *)
Lemma uuid_in_printed (source u : string) :
  uuid_in source = Some u -> uuid_in u = Some u.
Proof.
  unfold uuid_in.
  set (start := match source with
                | String "{" r => (true, r)
                | _ => (false, source)
                end).
  destruct start as [braces src].
  destruct (read_bytes 16 0 src) as [[printed tail] |] eqn:R; [| discriminate].
  intros H.
  assert (u = printed) as ->.
  { destruct braces.
    - destruct tail as [| t0 tail]; [discriminate |].
      destruct (Ascii.eqb_spec t0 "}"%char) as [-> | N].
      + destruct tail; [injection H as <-; reflexivity | discriminate].
      + destruct t0 as [[] [] [] [] [] [] [] []]; try discriminate.
        congruence.
    - destruct tail; [injection H as <-; reflexivity | discriminate]. }
  clear H.
  destruct (read_bytes_printed 16 0 src printed tail EmptyString eq_refl R)
    as [P1 P2].
  destruct (P2 ltac:(discriminate)) as [v [r [E V]]].
  destruct (hex_char_reads_back v V) as [_ [_ Nb]].
  rewrite E in *.
  assert ((String (hex_char v) r ++ EmptyString)%string = String (hex_char v) r)
    as A.
  { clear. generalize (String (hex_char v) r). intros s.
    induction s as [| a s IH]; simpl; [reflexivity | rewrite IH; reflexivity]. }
  rewrite A in P1.
  assert (match String (hex_char v) r with
          | String "{" r0 => (true, r0)
          | _ => (false, String (hex_char v) r)
          end = (false, String (hex_char v) r)) as ->.
  { destruct (hex_char v) as [[] [] [] [] [] [] [] []]; try reflexivity.
    congruence. }
  rewrite P1. reflexivity.
Qed.

End UuidFacts.

(** ** Claims *)

(** C1, at the failing input.  The number 0.005 passes [isValidAmount].  A
    transfer of it from [a] (500.00) to [c] (0.00) commits; the store rounds
    each UPDATE on its own: 500.00 - 0.005 is stored as 500.00, 0.00 + 0.005
    as 0.01.  The sender has lost nothing, the recipient has gained a
    hundredth: the sum of the two balances has grown. *)
Lemma transfer_of_half_a_hundredth_creates_one :
  isValidAmount Scenario.half_a_cent = true
  /\ balance_of Scenario.ledger Scenario.a = Some 50000
  /\ balance_of Scenario.ledger Scenario.c = Some 0
  /\ exists (r : TransferResponse) (client : Client),
       run Scenario.transfer_half_a_cent Scenario.ledger = (Ok r, client)
       /\ balance_of (db client) Scenario.a = Some 50000
       /\ balance_of (db client) Scenario.c = Some 1.
Proof.
  repeat split; try (vm_compute; reflexivity).
  do 2 eexists. repeat split; vm_compute; reflexivity.
Qed.

(** C2, at the failing inputs.  A credit of 0.005 on the wallet of [a]
    (500.00) commits with a record of amount 0.01 and both snapshots 500.00,
    while the wallet goes to 500.01.  A credit of 0.01, an amount of two
    decimals, on a wallet at 140737488355328.00 commits with a record whose
    snapshots are both 140737488355328.00: binary64 cannot tell the new
    balance from the old one.  In both records [balance_after] is not
    [balance_before] plus the amount. *)
Lemma credit_snapshots_miss_the_amount :
  (exists (t : Transaction) (client : Client),
      run Scenario.credit_half_a_cent Scenario.ledger = (Ok t, client)
      /\ In t (transactions (db client))
      /\ type t = credit_type
      /\ amount_of t = 1
      /\ balance_before t = 50000
      /\ balance_after t = 50000
      /\ balance_of (db client) Scenario.a = Some 50001
      /\ ~ snapshot_consistent t)
  /\ (exists (t : Transaction) (client : Client),
         cents (of_decimal 1 (- 2)) = Some 1
         /\ run Scenario.credit_one_cent Scenario.vast_ledger = (Ok t, client)
         /\ In t (transactions (db client))
         /\ type t = credit_type
         /\ amount_of t = 1
         /\ balance_before t = 14073748835532800
         /\ balance_after t = 14073748835532800
         /\ balance_of (db client) Scenario.a = Some 14073748835532801
         /\ ~ snapshot_consistent t).
Proof.
  split; do 2 eexists; repeat split;
    try (vm_compute; reflexivity);
    try (vm_compute; left; reflexivity);
    vm_compute; discriminate.
Qed.

(** C3, at the failing inputs.  The wallet of [a] holds 70368744177664.01
    and the debit asks for 70368744177664.02.  Both read as the same
    binary64 number, so the guard [balanceBefore < amount] does not fire; the
    UPDATE computes -0.01 and is refused by CHECK (balance >= 0).  The call
    fails, with the wallet locked and the database as it was, but what it
    throws is the error of the store, not Insufficient balance.  With the
    wallet at 140737488355328.00 and a debit of 140737488355328.01 the
    amount reads as the balance itself: nothing fails, and the debit commits
    for 140737488355328.00. *)
Lemma debit_above_a_large_balance_passes_the_guard :
  (balance_of Scenario.large_ledger Scenario.a = Some 7036874417766401
   /\ cents (of_decimal 7036874417766402 (- 2)) = Some 7036874417766402
   /\ JS.lt (parseFloat 7036874417766401) (of_decimal 7036874417766402 (- 2))
      = false
   /\ run Scenario.debit_one_cent_more Scenario.large_ledger
      = (Err (DatabaseError wallets_balance_check),
         mkClient Scenario.large_ledger [Scenario.wallet_a])
   /\ outcome (run Scenario.debit_one_cent_more Scenario.large_ledger)
      <> Err InsufficientBalance)
  /\ (balance_of Scenario.vast_ledger Scenario.a = Some 14073748835532800
      /\ exists (t : Transaction) (client : Client),
           run Scenario.debit_one_cent_more_vast Scenario.vast_ledger
           = (Ok t, client)
           /\ amount_of t = 14073748835532800
           /\ balance_of (db client) Scenario.a = Some 0).
Proof.
  repeat split; try (vm_compute; reflexivity); try (vm_compute; discriminate).
  do 2 eexists. repeat split; vm_compute; reflexivity.
Qed.

Lemma bind_run_Ok {A B : Type} (m : M A) (k : A -> M B) (c c1 : Client) (a : A) :
  m c = (Ok a, c1) -> bind m k c = k a c1.
Proof. unfold bind. intros ->. reflexivity. Qed.

Lemma or_else_supplied (ref generated : string) :
  ref <> EmptyString -> or_else (Some ref) generated = ref.
Proof. destruct ref; [congruence | reflexivity]. Qed.

Lemma reference_used_app (d : Database) (c : Client) (t : Transaction) :
  transactions (db c) = (transactions d ++ [t])%list ->
  reference_used (db c) (reference t) = true.
Proof.
  unfold reference_used. intros ->. rewrite existsb_app. simpl.
  rewrite String.eqb_refl. apply orb_true_iff. right. reflexivity.
Qed.

(** A credit whose reference is already in the store throws before it opens
    a transaction. *)
Lemma credit_reference_used (userId : string) (amount : number)
    (description reference ipAddress : option string) (generated : string)
    (d : Database) :
  isValidAmount amount = true ->
  reference_used d (or_else reference generated) = true ->
  run (WalletService.credit userId amount description reference ipAddress generated) d
  = (Err DuplicateReference, mkClient d []).
Proof.
  intros V U. unfold run, WalletService.credit. rewrite V. cbn [negb].
  unfold bind, Pg.select_transactions_by_reference. cbn [db].
  destruct (filter _ (transactions d)) eqn:F.
  - apply reference_used_filter in F. congruence.
  - reflexivity.
Qed.

(** C6.  A credit whose reference some record of the store already carries
    is rejected: it throws, takes no lock and leaves the database (balances
    and records) as it was, and what it throws, the amount being valid, is
    Transaction reference already exists.  Hence after a committed credit
    with a supplied reference, every further credit with that reference is
    rejected and nothing is applied twice. *)
Theorem credit_duplicate_reference_rejected :
  (forall (userId : string) (amount : number)
      (description reference ipAddress : option string) (generated : string)
      (d : Database),
      reference_used d (or_else reference generated) = true ->
      (exists e,
          run (WalletService.credit userId amount description reference
                 ipAddress generated) d = (Err e, mkClient d []))
      /\ (isValidAmount amount = true ->
          run (WalletService.credit userId amount description reference
                 ipAddress generated) d
          = (Err DuplicateReference, mkClient d [])))
  /\ (forall (userId userId' : string) (amount amount' : number)
        (description description' ipAddress ipAddress' : option string)
        (ref generated generated' : string)
        (d : Database) (t : Transaction) (c : Client),
         ref <> EmptyString ->
         run (WalletService.credit userId amount description (Some ref) ipAddress
                generated) d = (Ok t, c) ->
         (exists e,
             run (WalletService.credit userId' amount' description' (Some ref)
                    ipAddress' generated') (db c) = (Err e, mkClient (db c) []))
         /\ (isValidAmount amount' = true ->
             run (WalletService.credit userId' amount' description' (Some ref)
                    ipAddress' generated') (db c)
             = (Err DuplicateReference, mkClient (db c) []))).
Proof.
  assert (forall (userId : string) (amount : number)
             (description reference ipAddress : option string)
             (generated : string) (d : Database),
             reference_used d (or_else reference generated) = true ->
             (exists e,
                 run (WalletService.credit userId amount description reference
                        ipAddress generated) d = (Err e, mkClient d []))
             /\ (isValidAmount amount = true ->
                 run (WalletService.credit userId amount description reference
                        ipAddress generated) d
                 = (Err DuplicateReference, mkClient d []))) as Rejected.
  { intros userId amount description reference ipAddress generated d U. split.
    - destruct (isValidAmount amount) eqn:V.
      + exists DuplicateReference. apply credit_reference_used; assumption.
      + exists InvalidAmount. unfold run, WalletService.credit. rewrite V.
        reflexivity.
    - intros V. apply credit_reference_used; assumption. }
  split; [exact Rejected |].
  intros userId userId' amount amount' description description' ipAddress
    ipAddress' ref generated generated' d t c N R.
  apply credit_committed in R.
  destruct R as (u & w & rest & before & after & _ & _ & _ & _ & _ & _ & Et & _
                 & _ & _ & _ & T & _).
  apply Rejected.
  rewrite or_else_supplied by exact N.
  rewrite (or_else_supplied ref generated N) in Et.
  apply reference_used_app in T. rewrite Et in T. exact T.
Qed.

(** Each operation keeps CHECK (balance >= 0) on every wallet row. *)
Lemma perform_keeps_nonneg (op : Operation) (d : Database) :
  balances_nonneg d = true -> balances_nonneg (perform d op) = true.
Proof.
  unfold balances_nonneg. intros N.
  destruct op as [u a ds rf ip g | u a ds rf ip g | u e i a ds rf ip g]; simpl;
    unfold store.
  - destruct (run (WalletService.credit u a ds rf ip g) d) as [[t | err] c] eqn:R.
    + apply credit_committed in R.
      destruct R as (x & w & rest & before & after & _ & _ & _ & _ & _ & _ & _
                     & _ & _ & W & V & _).
      simpl. rewrite W in *. apply update_keeps_nonneg; assumption.
    + apply credit_thrown in R. simpl. rewrite R. exact N.
  - destruct (run (WalletService.debit u a ds rf ip g) d) as [[t | err] c] eqn:R.
    + apply debit_committed in R.
      destruct R as (x & w & rest & before & after & _ & _ & _ & _ & _ & _ & _
                     & _ & _ & _ & W & V & _).
      simpl. rewrite W in *. apply update_keeps_nonneg; assumption.
    + apply debit_thrown in R. simpl. rewrite R. exact N.
  - destruct (run (WalletService.transfer u e i a ds rf ip g) d)
      as [[r | err] c] eqn:R.
    + apply transfer_committed in R.
      destruct R as (rid & su & ru & sw & srest & rw & rrest & sb & sa & rb & ra
                     & _ & _ & _ & _ & _ & _ & _ & _ & _ & _ & _ & _ & _ & _ & _
                     & _ & _ & _ & W & V1 & V2 & _).
      simpl. rewrite W in *.
      apply update_keeps_nonneg; [| assumption].
      apply update_keeps_nonneg; assumption.
    + apply transfer_thrown in R. simpl. rewrite R. exact N.
Qed.

(** C7.  Non-negative balances are an invariant: from a database in which no
    wallet is negative, no sequence of credits, debits and transfers reaches
    one in which a wallet, or the balance reported for any owner, is
    negative. *)
Theorem balances_never_negative (ops : list Operation) (d : Database) :
  balances_nonneg d = true ->
  balances_nonneg (perform_all ops d) = true
  /\ forall (userId : string) (balance : Z),
       balance_of (perform_all ops d) userId = Some balance -> 0 <= balance.
Proof.
  intros N.
  assert (balances_nonneg (perform_all ops d) = true) as I.
  { unfold perform_all. revert d N.
    induction ops as [| op ops IH]; intros d N; simpl; [exact N |].
    apply IH. apply perform_keeps_nonneg. exact N. }
  split; [exact I |].
  intros userId balance B. rewrite balance_of_first in B.
  destruct (Uuid.uuid_in userId) as [u |]; [| discriminate].
  unfold balances_nonneg in I. rewrite forallb_forall in I.
  destruct (filter _ (wallets (perform_all ops d))) as [| w rest] eqn:F;
    [discriminate |].
  simpl in B. injection B as <-.
  apply filter_head_In in F. destruct F as [Hin _].
  apply Z.leb_le. apply I. exact Hin.
Qed.

(** C8, at the failing input.  The sender is [a]; the recipient is given by
    the identifier of [a] written in upper case.  The store reads both texts
    as the same UUID and finds the user, the service compares the two texts
    and finds them different: the transfer is not rejected.  It commits, on
    the one wallet of [a] as the sender's and as the recipient's, with the
    two records of a transfer, both owned by [a]. *)
Lemma transfer_to_own_identifier_commits :
  Scenario.a_upper_case <> Scenario.a
  /\ Uuid.uuid_in Scenario.a_upper_case = Uuid.uuid_in Scenario.a
  /\ exists (r : TransferResponse) (client : Client),
       run Scenario.transfer_to_self Scenario.ledger = (Ok r, client)
       /\ user_id (sender_transaction r) = Scenario.a
       /\ user_id (recipient_transaction r) = Scenario.a
       /\ wallet_id (sender_transaction r) = Scenario.wallet_a
       /\ wallet_id (recipient_transaction r) = Scenario.wallet_a
       /\ transactions (db client)
          = [sender_transaction r; recipient_transaction r]
       /\ outcome (run Scenario.transfer_to_self Scenario.ledger)
          <> Err SelfTransferNotAllowed.
Proof.
  split; [discriminate |].
  split; [vm_compute; reflexivity |].
  do 2 eexists. repeat split; try (vm_compute; reflexivity).
  vm_compute. discriminate.
Qed.

(** C10.  Lookup by reference is scoped to the owner: a record it returns is
    a stored record with the queried reference whose owner is the UUID the
    queried identifier is a text of, and, references being unique, a stored
    record with the queried reference but another owner makes the lookup
    return nothing.  An identifier that is no text of a UUID gets the error
    of the store and no record. *)
Theorem lookup_by_reference_owner_scoped (ref userId : string) (d : Database) :
  (forall t : Transaction,
      outcome (run (WalletService.getTransactionByReference ref userId) d)
      = Ok (Some t) ->
      In t (transactions d) /\ reference t = ref
      /\ Uuid.uuid_in userId = Some (user_id t))
  /\ (references_unique d = true ->
      forall t : Transaction,
        In t (transactions d) -> reference t = ref ->
        Uuid.uuid_in userId <> Some (user_id t) ->
        run (WalletService.getTransactionByReference ref userId) d
        = (match Uuid.uuid_in userId with
           | Some _ => Ok None
           | None => Err (DatabaseError invalid_text_representation)
           end, mkClient d [])).
Proof.
  unfold outcome, run, WalletService.getTransactionByReference, bind,
    Pg.select_transactions_by_reference_and_user, Pg.with_uuid, ret, throw.
  destruct (Uuid.uuid_in userId) as [u |]; cbn [db fst].
  - split.
    + intros t H.
      destruct (filter _ (transactions d)) as [| x rest] eqn:F; simpl in H;
        [discriminate |].
      injection H as ->.
      apply filter_head_In in F. destruct F as [Hin E].
      apply andb_true_iff in E. destruct E as [E1 E2].
      apply String.eqb_eq in E1, E2. subst u. auto.
    + intros U t Hin Er Nu.
      destruct (filter _ (transactions d)) as [| x rest] eqn:F; [reflexivity |].
      exfalso. apply filter_head_In in F. destruct F as [Hx E].
      apply andb_true_iff in E. destruct E as [E1 E2].
      apply String.eqb_eq in E1, E2.
      assert (x = t) as ->
        by (apply (distinct_key_inj reference (transactions d) x t U Hx Hin);
            congruence).
      congruence.
  - split; [discriminate | reflexivity].
Qed.

(** C4, as the code has it.  Under the keys of [wallets], a committed transfer
    has taken exactly two row locks: the sender's wallet first, the
    recipient's wallet second, whatever their identifiers.  The first
    record is the sender's and the second the recipient's, who is named by
    a text other than the sender's. *)
Theorem transfer_locks_sender_first (senderUserId : string)
    (recipientEmail recipientUserId : option string) (amount : number)
    (description reference ipAddress : option string) (generated : string)
    (d : Database) (r : TransferResponse) (c : Client) :
  wallets_keyed d = true ->
  run (WalletService.transfer senderUserId recipientEmail recipientUserId amount
         description reference ipAddress generated) d = (Ok r, c) ->
  locked c = [wallet_id (sender_transaction r);
              wallet_id (recipient_transaction r)]
  /\ Uuid.uuid_in senderUserId = Some (user_id (sender_transaction r))
  /\ exists recipientId,
       outcome (run (WalletService.resolveRecipient recipientEmail
                       recipientUserId) d) = Ok recipientId
       /\ Uuid.uuid_in recipientId = Some (user_id (recipient_transaction r))
       /\ recipientId <> senderUserId.
Proof.
  intros K H. apply transfer_committed in H.
  destruct H as (rid & su & ru & sw & srest & rw & rrest & sb & sa & rb & ra
                 & _ & _ & Rs & N & SU & RU & SW & RW & _ & _ & _ & _ & _ & Es
                 & Er & _ & _ & _ & _ & _ & _ & _ & L).
  unfold wallets_keyed in K. apply andb_true_iff in K. destruct K as [_ K].
  pose proof (filter_distinct_key w_user_id _ _ _ _ K SW) as ->.
  pose proof (filter_distinct_key w_user_id _ _ _ _ K RW) as ->.
  rewrite L, Es, Er. simpl. repeat split; [exact SU |].
  exists rid. unfold outcome. rewrite Rs. repeat split; [exact RU | congruence].
Qed.

(** C4, the claim as written, fails.  On the ledger of [Scenario] the transfer
    a -> b locks the wallet of a and then the wallet of b, the transfer
    b -> a locks the wallet of b and then the wallet of a: the order follows
    the roles.  Two sessions that ask for the locks in these two orders can
    reach a state in which each holds the lock the other waits for. *)
Lemma transfer_lock_order_follows_roles :
  lock_order (run Scenario.transfer_T1 Scenario.ledger)
  = [Scenario.wallet_a; Scenario.wallet_b]
  /\ lock_order (run Scenario.transfer_T2 Scenario.ledger)
     = [Scenario.wallet_b; Scenario.wallet_a]
  /\ lock_order (run Scenario.transfer_T1 Scenario.ledger)
     <> lock_order (run Scenario.transfer_T2 Scenario.ledger)
  /\ exists st,
       RowLocks.reachable
         (RowLocks.begin (lock_order (run Scenario.transfer_T1 Scenario.ledger)),
          RowLocks.begin (lock_order (run Scenario.transfer_T2 Scenario.ledger)))
         st
       /\ RowLocks.deadlocked st = true.
Proof.
  assert (lock_order (run Scenario.transfer_T1 Scenario.ledger)
          = [Scenario.wallet_a; Scenario.wallet_b]) as E1
    by (vm_compute; reflexivity).
  assert (lock_order (run Scenario.transfer_T2 Scenario.ledger)
          = [Scenario.wallet_b; Scenario.wallet_a]) as E2
    by (vm_compute; reflexivity).
  rewrite E1, E2. repeat split.
  - discriminate.
  - exists (RowLocks.mkSession [Scenario.wallet_a] [Scenario.wallet_b],
            RowLocks.mkSession [Scenario.wallet_b] [Scenario.wallet_a]).
    split; [| reflexivity].
    eapply RowLocks.reach_step.
    + eapply RowLocks.reach_step.
      * apply RowLocks.reach_start.
      * apply RowLocks.step_left. reflexivity.
    + apply RowLocks.step_right. reflexivity.
Qed.

Lemma db_transaction_Err_inv {A : Type} (callback : M A) (c c' : Client)
    (e : Thrown) :
  db_transaction callback c = (Err e, c') ->
  exists c1, callback c = (Err e, c1).
Proof.
  unfold db_transaction. destruct (callback c) as [[x | e1] c1]; intros H;
    [discriminate |].
  injection H as -> _. exists c1. reflexivity.
Qed.

Lemma update_wallet_balance_Err (delta : numeric) (wid : string) (c c' : Client)
    (e : Thrown) :
  Pg.update_wallet_balance delta wid c = (Err e, c') ->
  exists v, e = DatabaseError v.
Proof.
  unfold Pg.update_wallet_balance.
  destruct (Pg.balance_violation _ _) as [v |]; intros H; [| discriminate].
  injection H as <- _. exists v. reflexivity.
Qed.

Lemma insert_transaction_Err (wid uid : string) (ty : TransactionType)
    (amt : numeric) (ref : string) (descr : option string)
    (before after : option Z) (st : TransactionStatus) (c c' : Client)
    (e : Thrown) :
  Pg.insert_transaction wid uid ty amt ref descr before after st c = (Err e, c') ->
  exists v, e = DatabaseError v.
Proof.
  unfold Pg.insert_transaction. intros H.
  apply with_uuid_Err in H. destruct H as [[_ [-> _]] | [u [_ H]]];
    [eexists; reflexivity |].
  destruct before as [b |];
    [| injection H as <- _; eexists; reflexivity].
  destruct after as [a |];
    [| injection H as <- _; eexists; reflexivity].
  destruct (Pg.transaction_violation _ _) as [v |]; [| discriminate].
  injection H as <- _. exists v. reflexivity.
Qed.

(** What recipient resolution throws when a selector is supplied. *)
Lemma resolveRecipient_Err (email uid : option string) (c c' : Client) (e : Thrown) :
  negb (truthy email) && negb (truthy uid) = false ->
  WalletService.resolveRecipient email uid c = (Err e, c') ->
  e = RecipientNotFound \/ e = DatabaseError invalid_text_representation.
Proof.
  unfold WalletService.resolveRecipient, bind, Pg.select_users_by_email,
    Pg.select_users_by_id, Pg.with_uuid, ret, throw.
  destruct (truthy email); cbn [negb andb].
  - intros _. destruct (filter _ (users _)); intros H; [| discriminate].
    injection H as <- _. left. reflexivity.
  - destruct (truthy uid); cbn [negb]; [| discriminate].
    intros _. destruct (Uuid.uuid_in _).
    + destruct (filter _ (users _)); intros H; [| discriminate].
      injection H as <- _. left. reflexivity.
    + intros H. injection H as <- _. right. reflexivity.
Qed.

Ltac not_duplicate H :=
  first [ discriminate H
        | apply throw_run in H; destruct H as [H _]; discriminate H
        | apply select_for_update_Err in H; destruct H as [H _]; discriminate H
        | apply update_wallet_balance_Err in H; destruct H as [? H];
          discriminate H
        | apply insert_transaction_Err in H; destruct H as [? H];
          discriminate H
        | apply logTransaction_then_Err in H; destruct H as [? H];
          apply logTransaction_then_Err in H; destruct H as [? H];
          apply ret_not_Err in H; destruct H ].

(** The duplicate check of [transfer] looks at the base reference and at
    nothing else: with the base reference unused, no state of the derived
    references -OUT and -IN makes the call throw Transaction reference
    already exists. *)
Lemma transfer_checks_base_reference_only (senderUserId : string)
    (recipientEmail recipientUserId : option string) (amount : number)
    (description reference ipAddress : option string) (generated : string)
    (d : Database) :
  reference_used d (or_else reference generated) = false ->
  outcome (run (WalletService.transfer senderUserId recipientEmail
                  recipientUserId amount description reference ipAddress
                  generated) d)
  <> Err DuplicateReference.
Proof.
  intros U E. apply reference_used_filter in U.
  destruct (run _ d) as [res c] eqn:H. unfold outcome in E. simpl in E.
  subst res. unfold run, WalletService.transfer, DuplicateReference in H.
  destruct (isValidAmount amount); cbn [negb] in H; [| not_duplicate H].
  destruct (negb (truthy recipientEmail) && negb (truthy recipientUserId)) eqn:T;
    [not_duplicate H |].
  apply bind_Err in H. destruct H as [H | [ex [c1 [H1 H]]]]; [not_duplicate H |].
  injection H1 as <- <-. cbn [db] in H. rewrite U in H.
  apply bind_Err in H. destruct H as [H | [recipientId [c2 [H2 H]]]].
  { apply (resolveRecipient_Err _ _ _ _ _ T) in H. destruct H; discriminate. }
  destruct (senderUserId =? recipientId)%string; [not_duplicate H |].
  apply bind_Err in H. destruct H as [H | [res [c3 [_ H]]]]; [| not_duplicate H].
  apply db_transaction_Err_inv in H. destruct H as [c4 H].
  apply bind_Err in H. destruct H as [H | [srows [c5 [_ H]]]]; [not_duplicate H |].
  destruct srows as [| sw srest]; [not_duplicate H |].
  destruct (JS.lt (parseFloat (w_balance sw)) amount); [not_duplicate H |].
  apply bind_Err in H. destruct H as [H | [rrows [c6 [_ H]]]]; [not_duplicate H |].
  destruct rrows as [| rw rrest]; [not_duplicate H |].
  apply bind_Err in H. destruct H as [H | [u1 [c7 [_ H]]]]; [not_duplicate H |].
  apply bind_Err in H. destruct H as [H | [u2 [c8 [_ H]]]]; [not_duplicate H |].
  apply bind_Err in H. destruct H as [H | [st [c9 [_ H]]]]; [not_duplicate H |].
  apply bind_Err in H. destruct H as [H | [rt [c10 [_ H]]]]; not_duplicate H.
Qed.

(** C5, at the failing input.  After Transfer(a -> b, 100.00, reference T1)
    has committed (500.00 and 200.00 have become 400.00 and 300.00), the store
    holds T1-OUT and T1-IN and no record with reference T1.  The same
    transfer sent again passes the check made before the transaction, locks
    both wallets, and is stopped only by UNIQUE (reference) when the first
    INSERT runs; the transaction is rolled back. *)
Lemma transfer_retry_reaches_the_locks :
  balance_of Scenario.ledger_after_T1 Scenario.a = Some 40000
  /\ balance_of Scenario.ledger_after_T1 Scenario.b = Some 30000
  /\ reference_used Scenario.ledger_after_T1 "T1-OUT" = true
  /\ reference_used Scenario.ledger_after_T1 "T1-IN" = true
  /\ reference_used Scenario.ledger_after_T1 "T1" = false
  /\ run Scenario.transfer_T1 Scenario.ledger_after_T1
     = (Err (DatabaseError transactions_reference_key),
        mkClient Scenario.ledger_after_T1 [Scenario.wallet_a; Scenario.wallet_b]).
Proof. repeat split; vm_compute; reflexivity. Qed.

(** A valid transfer that supplies neither an e-mail address nor an
    identifier is rejected before the store is read. *)
Lemma transfer_without_recipient_rejected (senderUserId : string)
    (recipientEmail recipientUserId : option string) (amount : number)
    (description reference ipAddress : option string) (generated : string)
    (d : Database) :
  isValidAmount amount = true ->
  truthy recipientEmail = false ->
  truthy recipientUserId = false ->
  run (WalletService.transfer senderUserId recipientEmail recipientUserId amount
         description reference ipAddress generated) d
  = (Err InvalidRequest, mkClient d []).
Proof.
  intros V E I. unfold run, WalletService.transfer. rewrite V, E, I. reflexivity.
Qed.

(** With an e-mail address supplied, the identifier plays no part in the
    resolution of the recipient. *)
Lemma resolveRecipient_email_first (recipientEmail recipientUserId : option string)
    (c : Client) :
  truthy recipientEmail = true ->
  WalletService.resolveRecipient recipientEmail recipientUserId c
  = WalletService.resolveRecipient recipientEmail None c.
Proof.
  intros E. unfold WalletService.resolveRecipient. rewrite E. reflexivity.
Qed.

(** C9, at the failing input.  A transfer from [a] that names [b] by e-mail
    address and [c] by identifier is not rejected: it commits, with [b] as
    the recipient and the wallet of [c] untouched. *)
Lemma transfer_with_both_selectors_commits :
  exists (r : TransferResponse) (client : Client),
    run Scenario.transfer_two_selectors Scenario.ledger = (Ok r, client)
    /\ user_id (recipient_transaction r) = Scenario.b
    /\ balance_of (db client) Scenario.a = Some 40000
    /\ balance_of (db client) Scenario.b = Some 30000
    /\ balance_of (db client) Scenario.c = Some 0.
Proof.
  do 2 eexists. split; [vm_compute; reflexivity |].
  repeat split; vm_compute; reflexivity.
Qed.

(** ** The claims on the ledger of [Scenario] *)

Lemma credit_duplicate_reference_rejected_witness :
  exists (t : Transaction) (client : Client),
    run Scenario.credit_R1 Scenario.ledger = (Ok t, client)
    /\ run Scenario.credit_R1 (db client)
       = (Err DuplicateReference, mkClient (db client) []).
Proof.
  do 2 eexists. split.
  - vm_compute. reflexivity.
  - eapply (proj2 credit_duplicate_reference_rejected Scenario.a Scenario.a
              (of_decimal 500 0) (of_decimal 500 0) None None None None "R1"
              "TXN-1730000000-003-ABC125" "TXN-1730000000-003-ABC125"
              Scenario.ledger).
    + discriminate.
    + vm_compute. reflexivity.
    + vm_compute. reflexivity.
Defined.

Lemma balances_never_negative_witness :
  balances_nonneg
    (perform_all
       [Credit Scenario.a (of_decimal 500 0) None (Some "R1") None
          "TXN-1730000000-003-ABC125";
        Debit Scenario.a (of_decimal 900 0) None (Some "D1") None
          "TXN-1730000000-004-ABC126";
        Transfer Scenario.a None (Some Scenario.b) Scenario.half_a_cent None
          (Some "T1") None "TXN-1730000000-001-ABC123";
        Debit Scenario.b (of_decimal 300 0) None None None
          "TXN-1730000000-006-ABC128"]
       Scenario.ledger) = true.
Proof.
  apply (balances_never_negative
           [Credit Scenario.a (of_decimal 500 0) None (Some "R1") None
              "TXN-1730000000-003-ABC125";
            Debit Scenario.a (of_decimal 900 0) None (Some "D1") None
              "TXN-1730000000-004-ABC126";
            Transfer Scenario.a None (Some Scenario.b) Scenario.half_a_cent None
              (Some "T1") None "TXN-1730000000-001-ABC123";
            Debit Scenario.b (of_decimal 300 0) None None None
              "TXN-1730000000-006-ABC128"]
           Scenario.ledger).
  reflexivity.
Defined.

Lemma lookup_by_reference_owner_scoped_witness :
  run (WalletService.getTransactionByReference "T1-OUT" Scenario.b)
    Scenario.ledger_after_T1
  = (Ok None, mkClient Scenario.ledger_after_T1 []).
Proof.
  apply (proj2 (lookup_by_reference_owner_scoped "T1-OUT" Scenario.b
                  Scenario.ledger_after_T1) eq_refl
           (mkTransaction 0 Scenario.wallet_a Scenario.a transfer_out 10000
              "T1-OUT"
              (Some "Transfer to user bbbbbbbb-bbbb-4bbb-8bbb-bbbbbbbbbbbb")
              50000 40000 success)).
  - vm_compute. left. reflexivity.
  - reflexivity.
  - vm_compute. discriminate.
Defined.

Lemma transfer_locks_sender_first_witness :
  exists (r : TransferResponse) (client : Client),
    run Scenario.transfer_T2 Scenario.ledger = (Ok r, client)
    /\ locked client = [wallet_id (sender_transaction r);
                        wallet_id (recipient_transaction r)]
    /\ Uuid.uuid_in Scenario.b = Some (user_id (sender_transaction r))
    /\ exists recipientId,
         outcome (run (WalletService.resolveRecipient None (Some Scenario.a))
                    Scenario.ledger) = Ok recipientId
         /\ Uuid.uuid_in recipientId = Some (user_id (recipient_transaction r))
         /\ recipientId <> Scenario.b.
Proof.
  do 2 eexists. split.
  - vm_compute. reflexivity.
  - apply (transfer_locks_sender_first Scenario.b None (Some Scenario.a)
             (of_decimal 50 0) None (Some "T2") None
             "TXN-1730000000-002-ABC124" Scenario.ledger).
    + reflexivity.
    + vm_compute. reflexivity.
Defined.
